(** * OverlayFrameNumber: a shallow embedding of [OverlayFrameNumber]

    The node burns a zero-padded frame counter into every frame of an image
    batch.  This file embeds [process], [_get_system_fonts] and
    [INPUT_TYPES] (src/OverlayFrameNumber.py) as functions and proves the
    properties of their specification.

    Conventions of the embedding:
    - Python [int] is [Z] (sizes and indices that are never negative are
      [nat]); a Python [str] is a [string] whose characters are the code
      points below 256;
    - a tensor is its shape together with its row-major contents; the
      image batch is a single-precision tensor of finite entries, and an
      entry is the rational number ([Q]) it denotes; the rounding of
      single-precision arithmetic is [round_float32];
    - an 8-bit sample is a [byte];
    - the collaborators (operating system, font loader, text measurement
      and text drawing of the image library, the numeric conversions that
      the C language leaves undefined) are the fields of a [Host] record;
    - a computation carries the trace of what it did to the outside:
      the lines it printed and the [draw.text] calls that took effect. *)

From Stdlib Require Import ZArith QArith Qround Qabs Qpower.
From Stdlib Require Import List String Ascii Bool Lia.
From Stdlib Require Import Strings.Byte.
From Stdlib Require Import DecimalString DecimalNat Sorted.
Import ListNotations.

Local Open Scope Z_scope.
Local Open Scope string_scope.

(** ** Strings *)

(** [str.isspace] on the code points below 256. *)
Definition isspace (c : ascii) : bool :=
  let n := nat_of_ascii c in
  ((9 <=? n) && (n <=? 13) || (28 <=? n) && (n <=? 32)
   || (n =? 133) || (n =? 160))%nat.

Fixpoint lstrip (s : string) : string :=
  match s with
  | EmptyString => EmptyString
  | String c s' => if isspace c then lstrip s' else s
  end.

Fixpoint rstrip (s : string) : string :=
  match s with
  | EmptyString => EmptyString
  | String c s' =>
      match rstrip s' with
      | EmptyString => if isspace c then EmptyString else String c EmptyString
      | r => String c r
      end
  end.

(** [s.strip()] *)
Definition strip (s : string) : string := rstrip (lstrip s).

(** Truth value of a Python string. *)
Definition truthy (s : string) : bool :=
  match s with EmptyString => false | _ => true end.

Fixpoint blank (s : string) : bool :=
  match s with
  | EmptyString => true
  | String c s' => isspace c && blank s'
  end.

Fixpoint zeros (n : nat) : string :=
  match n with O => EmptyString | S n' => String "0" (zeros n') end.

(** [str(n)] for a natural number. *)
Definition decimal (n : nat) : string := NilEmpty.string_of_uint (Nat.to_uint n).

(** [f"{n:0{width}d}"] for a natural number [n]. *)
Definition format_0d (width n : nat) : string :=
  let s := decimal n in zeros (width - String.length s) ++ s.

(** Reading a string of decimal digits, as [int(s)] does. *)
Definition parse_decimal (s : string) : option nat :=
  option_map Nat.of_uint (NilEmpty.uint_of_string s).

(** ** Single precision *)

(** [2^e] *)
Definition pow2 (e : Z) : Q := Qpower 2 e.

(** The exponent [e] with [2^e <= q < 2^(e+1)], for a positive [q]. *)
Definition ilog2 (q : Q) : Z :=
  let e0 := Z.log2 (Qnum q) - Z.log2 (Zpos (Qden q)) in
  if Qle_bool (pow2 e0) q then e0 else e0 - 1.

(** The nearest integer, the even one of two nearest. *)
Definition round_half_even (q : Q) : Z :=
  let f := Qfloor q in
  match Qcompare (q - inject_Z f) (1 # 2) with
  | Lt => f
  | Gt => f + 1
  | Eq => if Z.even f then f else f + 1
  end.

(** The single-precision number nearest to [q] (24 significant bits, least
    exponent -126, ties to even), for [q] below the overflow threshold. *)
Definition round_float32 (q : Q) : Q :=
  if Qeq_bool q 0 then 0%Q
  else
    let a := Qabs q in
    let e := Z.max (ilog2 a) (-126) in
    let ulp := pow2 (e - 23) in
    let r := (inject_Z (round_half_even (a / ulp)) * ulp)%Q in
    Qred (if Qle_bool 0 q then r else (- r)%Q).

(** Truncation towards zero. *)
Definition Qtrunc (q : Q) : Z := Z.quot (Qnum q) (Zpos (Qden q)).

(** ** Tensors, arrays and images *)

Record Tensor : Type := { shape : list nat; data : list Q }.

Definition numel (dims : list nat) : nat := fold_right Nat.mul 1%nat dims.

(** The contents fill the shape. *)
Definition well_formed (t : Tensor) : bool :=
  (List.length (data t) =? numel (shape t))%nat.

(** What the caller may pass as [images]. *)
Inductive PyObject : Type :=
| NotATensor
| TorchTensor (t : Tensor).

(** [t[i]] *)
Definition tensor_get (t : Tensor) (i : nat) : Tensor :=
  let rest := tl (shape t) in
  {| shape := rest;
     data := firstn (numel rest) (skipn (i * numel rest) (data t)) |}.

Record ndarray_uint8 : Type := { u8_shape : list nat; u8_data : list byte }.

Definition byte_of_Z (z : Z) : byte :=
  match Byte.of_N (Z.to_N (z mod 256)) with
  | Some b => b
  | None => x00
  end.

(** [np.float32(b) / 255.0] on one sample: both operands are exact in
    single precision and the quotient is rounded. *)
Definition of_uint8 (b : byte) : Q :=
  round_float32 (Z.of_N (Byte.to_N b) # 255).

(** A mode "RGB" image: [size] is (width, height). *)
Record PILImage : Type := { size : nat * nat; im : list byte }.

(** [Image.fromarray(a, mode="RGB")] for an array of shape (h, w, 3). *)
Definition fromarray (a : ndarray_uint8) : PILImage :=
  {| size := (nth 1 (u8_shape a) 0%nat, nth 0 (u8_shape a) 0%nat);
     im := u8_data a |}.

(** [np.array(img)] *)
Definition np_array (img : PILImage) : ndarray_uint8 :=
  {| u8_shape := [snd (size img); fst (size img); 3%nat]; u8_data := im img |}.

(** [torch.from_numpy(a.astype(np.float32) / 255.0)] *)
Definition from_numpy_div255 (a : ndarray_uint8) : Tensor :=
  {| shape := u8_shape a; data := map of_uint8 (u8_data a) |}.

Definition shape_eqb (s1 s2 : list nat) : bool :=
  if list_eq_dec Nat.eq_dec s1 s2 then true else false.

(** ** Fonts and text calls *)

Definition RGB : Type := (Z * Z * Z)%type.

(** A font handle of the image library. *)
Inductive Font : Type :=
| FreeTypeFont (path : string) (font_size : Z)
| DefaultFont.

(** The arguments of one [draw.text] call. *)
Record TextCall : Type := {
  xy : Z * Z;
  caption : string;
  call_font : Font;
  fill : option RGB;
  stroke : option (Z * RGB)   (* stroke_width, stroke_fill *)
}.

(** ** Exceptions, traces and the result monad *)

Inductive exn : Type :=
| ValueError (msg : string)
| KeyError (key : string)
| RuntimeError (msg : string)
| OSError (msg : string).

(** What a computation does to the outside: a line written by [print],
    or a [draw.text] call that took effect on an image. *)
Inductive Event : Type :=
| Printed (line : string)
| DrawText (img : PILImage) (call : TextCall).

(** A computation yields its trace and either the exception it raised or
    its value. *)
Definition M (A : Type) : Type := (list Event * (exn + A))%type.

Definition ret {A} (a : A) : M A := ([], inr a).
Definition raise {A} (e : exn) : M A := ([], inl e).
Definition print (line : string) : M unit := ([Printed line], inr tt).

Definition bind {A B} (m : M A) (k : A -> M B) : M B :=
  match m with
  | (out, inl e) => (out, inl e)
  | (out, inr a) => let (out', r) := k a in ((out ++ out')%list, r)
  end.

Notation "x <- m ;; k" := (bind m (fun x => k))
  (at level 61, m at next level, right associativity).
Notation "m ;;; k" := (bind m (fun _ => k))
  (at level 61, right associativity).

(** [try: m  except (OSError, IOError): handler] *)
Definition except_OSError {A} (m : M A) (handler : M A) : M A :=
  match m with
  | (out, inl (OSError _)) => let (out', r) := handler in ((out ++ out')%list, r)
  | _ => m
  end.

(** [for x in xs: ys.append(body(x))], aborted by the first exception. *)
Fixpoint mapM {A B} (body : A -> M B) (xs : list A) : M (list B) :=
  match xs with
  | [] => ret []
  | x :: xs' => y <- body x ;; ys <- mapM body xs' ;; ret (y :: ys)
  end.

Definition returned {A} (m : M A) : option A :=
  match snd m with inr a => Some a | inl _ => None end.

(** The exception of a call, if it raised one. *)
Definition raised {A} (m : M A) : option exn :=
  match snd m with inl e => Some e | inr _ => None end.

(** The lines of a trace. *)
Fixpoint printed (tr : list Event) : list string :=
  match tr with
  | [] => []
  | Printed line :: tr' => line :: printed tr'
  | DrawText _ _ :: tr' => printed tr'
  end.

(** The [draw.text] calls of a trace, each with the image it drew on. *)
Fixpoint draws (tr : list Event) : list (PILImage * TextCall) :=
  match tr with
  | [] => []
  | Printed _ :: tr' => draws tr'
  | DrawText img call :: tr' => (img, call) :: draws tr'
  end.

(** [torch.stack(ts, dim=0)] *)
Definition stack (ts : list Tensor) : M Tensor :=
  match ts with
  | [] => raise (RuntimeError "stack expects a non-empty TensorList")
  | t0 :: _ =>
      if forallb (fun t => shape_eqb (shape t) (shape t0)) ts
      then ret {| shape := List.length ts :: shape t0;
                  data := List.concat (map data ts) |}
      else raise (RuntimeError "stack expects each tensor to be equal size")
  end.

(** ** The collaborators *)

(** What [ImageFont.truetype(path, size)] does: it returns a font, it
    raises [OSError] (the file cannot be opened or read), or it raises
    [ValueError] (a size that is not positive, a NUL character in the
    path). *)
Inductive LoadOutcome : Type :=
| Loaded
| LoadOSError
| LoadValueError (msg : string).

(** The operating system and the libraries, as [process] sees them. *)
Record Host : Type := {
  (** [platform.system()] *)
  platform_system : string;
  (** [os.environ.get("WINDIR", default)] *)
  environ_get_WINDIR : string -> string;
  (** [os.path.expanduser] *)
  expanduser : string -> string;
  (** [os.path.join] *)
  os_path_join : string -> string -> string;
  (** [os.path.exists] *)
  os_path_exists : string -> bool;
  (** the outcome of [ImageFont.truetype(path, size)] *)
  truetype_outcome : string -> Z -> LoadOutcome;
  (** [draw.textbbox((0, 0), text, font=f)], or [None] when the image
      library is too old to have it ([AttributeError]) *)
  textbbox : option (string -> Font -> Z * Z * Z * Z);
  (** [draw.textsize(text, font=f)] *)
  textsize : string -> Font -> Z * Z;
  (** whether [draw.text] accepts [stroke_width] and [stroke_fill];
      otherwise such a call raises [TypeError] *)
  stroke_supported : bool;
  (** the effect of [draw.text] on the sample of channel [c] of the pixel
      in column [px] and row [py] *)
  text_ink : TextCall -> forall (px py c : nat), byte -> byte;
  (** [(v * 255).astype(np.uint8)] on an entry [v] whose product is not
      strictly between -1 and 256, where the conversion is left to the
      machine *)
  astype_uint8_undefined : Q -> byte
}.

(** [ImageFont.truetype(path, size)] *)
Definition truetype (host : Host) (path : string) (font_size : Z) : M Font :=
  match truetype_outcome host path font_size with
  | Loaded => ret (FreeTypeFont path font_size)
  | LoadOSError => raise (OSError "cannot open resource")
  | LoadValueError msg => raise (ValueError msg)
  end.

(** [(v * 255).astype(np.uint8)] on one entry: the product is rounded to
    single precision; the conversion truncates towards zero where the
    truncated value is an 8-bit number. *)
Definition to_uint8 (host : Host) (v : Q) : byte :=
  let y := round_float32 (v * 255) in
  if negb (Qle_bool y (-1)) && negb (Qle_bool 256 y)
  then byte_of_Z (Qtrunc y)
  else astype_uint8_undefined host v.

Definition astype_uint8 (host : Host) (t : Tensor) : ndarray_uint8 :=
  {| u8_shape := shape t; u8_data := map (to_uint8 host) (data t) |}.

Fixpoint mapi_from {A B} (f : nat -> A -> B) (k : nat) (l : list A) : list B :=
  match l with
  | [] => []
  | a :: l' => f k a :: mapi_from f (S k) l'
  end.

(** The image after [draw.text(...)]: every sample of the buffer is
    re-inked in place; the size of the image does not change. *)
Definition draw_text (host : Host) (img : PILImage) (call : TextCall) : PILImage :=
  let w := fst (size img) in
  {| size := size img;
     im := mapi_from
             (fun j old =>
                text_ink host call ((j / 3) mod w)%nat (j / (3 * w))%nat
                         (j mod 3)%nat old)
             0%nat (im img) |}.

(** A [draw.text] call that takes effect. *)
Definition draw (host : Host) (img : PILImage) (call : TextCall) : M PILImage :=
  ([DrawText img call], inr (draw_text host img call)).

(** ** The parameters of [process] *)

Record Params : Type := {
  font_size : Z;
  font_color : string;
  font : string;
  h_position : string;
  v_position : string;
  h_padding : Z;
  v_padding : Z;
  num_padding : nat;
  prefix_text : string;
  outline_enabled : bool;
  outline_color : string;
  stroke_width : Z
}.

(** A dictionary with string keys, in the order of its literal. *)
Definition dict (V : Type) : Type := list (string * V).

(** [d[key]] and [d.get(key)]: [None] when the key is absent. *)
Fixpoint dict_get {V} (d : dict V) (key : string) : option V :=
  match d with
  | [] => None
  | (k, v) :: d' => if key =? k then Some v else dict_get d' key
  end.

(** Lines 83-87.  The value of "none" is Python's [None]. *)
Definition color_map : dict (option RGB) :=
  [("white", Some (255, 255, 255)); ("black", Some (0, 0, 0));
   ("red", Some (255, 0, 0)); ("green", Some (0, 255, 0));
   ("blue", Some (0, 0, 255)); ("yellow", Some (255, 255, 0));
   ("cyan", Some (0, 255, 255)); ("magenta", Some (255, 0, 255));
   ("none", None)].

(** Lines 92-97. *)
Definition font_map : dict string :=
  [("Arial", "arial.ttf"); ("DejaVuSans", "DejaVuSans.ttf");
   ("Times New Roman", "times.ttf"); ("Courier New", "cour.ttf")].

(** [color_map[name]], which raises [KeyError] on an absent key. *)
Definition lookup_color (name : string) : M (option RGB) :=
  match dict_get color_map name with
  | Some c => ret c
  | None => raise (KeyError name)
  end.

(** Line 98: [font_map.get(font, font + ".ttf")] *)
Definition font_map_get (font : string) : string :=
  match dict_get font_map font with
  | Some font_file => font_file
  | None => font ++ ".ttf"
  end.

(** Lines 106-110. *)
Definition font_dirs (host : Host) : list string :=
  if platform_system host =? "Windows"
  then [os_path_join host (environ_get_WINDIR host "C:\Windows") "Fonts"]
  else if platform_system host =? "Darwin"
  then ["/System/Library/Fonts"; "/Library/Fonts";
        expanduser host "~/Library/Fonts"]
  else ["/usr/share/fonts"; "/usr/local/share/fonts";
        expanduser host "~/.fonts"].

(** Lines 111-119: the loop over [font_dirs].  The result is the font of
    the first candidate that exists and loads ([font_found]); a candidate
    that fails with [OSError] is skipped, any other exception of the
    loader leaves the loop. *)
Fixpoint search_font_dirs (host : Host) (font_file : string) (font_size : Z)
         (dirs : list string) : M (option Font) :=
  match dirs with
  | [] => ret None
  | font_dir :: dirs' =>
      let font_path_candidate := os_path_join host font_dir font_file in
      if os_path_exists host font_path_candidate
      then
        except_OSError
          (font_path <- truetype host font_path_candidate font_size ;;
           ret (Some font_path))
          (search_font_dirs host font_file font_size dirs')
      else search_font_dirs host font_file font_size dirs'
  end.

(** Lines 98-122: the font handle [font_path]. *)
Definition resolve_font (host : Host) (font : string) (font_size : Z) : M Font :=
  let font_file := font_map_get font in
  except_OSError
    (truetype host font_file font_size)
    (font_found <- search_font_dirs host font_file font_size (font_dirs host) ;;
     match font_found with
     | Some font_path => ret font_path
     | None =>
         print ("Font " ++ font_file ++ " not found, using default font") ;;;
         ret DefaultFont
     end).

(** ** One frame *)

(** Line 138: [frame_number] of the frame at index [i]. *)
Definition frame_number (num_padding i : nat) : string :=
  format_0d num_padding (i + 1).

(** Line 139: [text]. *)
Definition text (prefix_text : string) (num_padding i : nat) : string :=
  if truthy (strip prefix_text)
  then prefix_text ++ " " ++ frame_number num_padding i
  else frame_number num_padding i.

(** Lines 140-145: [(text_width, text_height)]. *)
Definition text_extent (host : Host) (text : string) (f : Font) : Z * Z :=
  match textbbox host with
  | Some bbox =>
      let '(l, t, r, b) := bbox text f in (r - l, b - t)
  | None => textsize host text f
  end.

(** Lines 150-155: [x]. *)
Definition x_origin (h_position : string) (h_padding img_width text_width : Z) : Z :=
  if h_position =? "left" then h_padding
  else if h_position =? "center" then (img_width - text_width) / 2
  else img_width - text_width - h_padding.

(** Lines 158-163: [y]. *)
Definition y_origin (v_position : string) (v_padding img_height text_height : Z) : Z :=
  if v_position =? "top" then v_padding
  else if v_position =? "center" then (img_height - text_height) / 2
  else img_height - text_height - v_padding.

(** Lines 168-171: the stroke that the frame asks for, if any. *)
Definition requested_stroke (p : Params) (outline_color_rgb : option RGB)
  : option (Z * RGB) :=
  match outline_color_rgb with
  | Some c =>
      if outline_enabled p && (0 <? stroke_width p)%Z
      then Some (stroke_width p, c) else None
  | None => None
  end.

(** The plain [draw.text] call of frame [i] on [img]: position, caption,
    font and fill colour (lines 136-163 and 171). *)
Definition text_call (host : Host) (p : Params) (font_path : Font)
           (font_color_rgb : option RGB) (img : PILImage) (i : nat) : TextCall :=
  let text := text (prefix_text p) (num_padding p) i in
  let '(text_width, text_height) := text_extent host text font_path in
  let img_width := Z.of_nat (fst (size img)) in
  let img_height := Z.of_nat (snd (size img)) in
  let x := x_origin (h_position p) (h_padding p) img_width text_width in
  let y := y_origin (v_position p) (v_padding p) img_height text_height in
  {| xy := (x, y); caption := text; call_font := font_path;
     fill := font_color_rgb; stroke := None |}.

Definition with_stroke (call : TextCall) (s : Z * RGB) : TextCall :=
  {| xy := xy call; caption := caption call; call_font := call_font call;
     fill := fill call; stroke := Some s |}.

(** Lines 166-174: draw with the outline when asked for and supported;
    a call with stroke arguments that the image library rejects has no
    effect on the image and is followed by the plain call. *)
Definition draw_caption (host : Host) (img : PILImage) (call : TextCall)
           (want : option (Z * RGB)) : M PILImage :=
  match want with
  | Some s =>
      if stroke_supported host
      then draw host img (with_stroke call s)
      else
        print "Text outline not supported in this Pillow version; rendering without outline" ;;;
        draw host img call
  | None => draw host img call
  end.

(** Lines 127-178: the body of the loop for the frame at index [i]. *)
Definition process_frame (host : Host) (p : Params) (font_path : Font)
           (font_color_rgb outline_color_rgb : option RGB)
           (images : Tensor) (i : nat) : M Tensor :=
  let img_tensor := tensor_get images i in
  let img_array := astype_uint8 host img_tensor in
  if (nth 2 (u8_shape img_array) 0 =? 3)%nat
  then
    let img := fromarray img_array in
    let call := text_call host p font_path font_color_rgb img i in
    img' <- draw_caption host img call (requested_stroke p outline_color_rgb) ;;
    ret (from_numpy_div255 (np_array img'))
  else raise (ValueError "Input images must have 3 channels (RGB)").

(** ** [process] *)

(** Lines 125-181: the loop over the frames and the final [torch.stack],
    once the colours and the font are known. *)
Definition run_frames (host : Host) (p : Params) (font_path : Font)
           (font_color_rgb outline_color_rgb : option RGB) (t : Tensor) : M Tensor :=
  output_images <-
    mapM (process_frame host p font_path font_color_rgb outline_color_rgb t)
         (seq 0 (nth 0 (shape t) 0%nat)) ;;
  stack output_images.

(** Lines 77-183.  The one-element tuple that the method returns is
    identified with its element. *)
Definition process (host : Host) (images : PyObject) (p : Params) : M Tensor :=
  match images with
  | NotATensor =>
      raise (ValueError "Input 'images' must be a 4D tensor (batch, height, width, channels)")
  | TorchTensor t =>
      if negb (List.length (shape t) =? 4)%nat
      then raise (ValueError "Input 'images' must be a 4D tensor (batch, height, width, channels)")
      else
        font_color_rgb <- lookup_color (font_color p) ;;
        outline_color_rgb <-
          (if outline_enabled p && negb (outline_color p =? "none")
           then lookup_color (outline_color p) else ret None) ;;
        font_path <- resolve_font host (font p) (font_size p) ;;
        run_frames host p font_path font_color_rgb outline_color_rgb t
  end.

(** ** The declared inputs of the node *)

Definition font_colors : list string :=
  ["white"; "black"; "red"; "green"; "blue"; "yellow"; "cyan"; "magenta"].

Definition outline_colors : list string := "none" :: font_colors.

Definition mem_string (s : string) (l : list string) : bool :=
  existsb (String.eqb s) l.

(** [INPUT_TYPES] (lines 16-32): the choices and ranges that the host
    graph enforces before it calls [process]. *)
Definition input_types_ok (p : Params) : bool :=
  (8 <=? font_size p)%Z && (font_size p <=? 200)%Z
  && mem_string (font_color p) font_colors
  && mem_string (h_position p) ["left"; "center"; "right"]
  && mem_string (v_position p) ["top"; "center"; "bottom"]
  && (0 <=? h_padding p)%Z && (h_padding p <=? 1000)%Z
  && (0 <=? v_padding p)%Z && (v_padding p <=? 1000)%Z
  && (1 <=? num_padding p)%nat && (num_padding p <=? 5)%nat
  && mem_string (outline_color p) outline_colors
  && (0 <=? stroke_width p)%Z && (stroke_width p <=? 5)%Z.

(** The colour names that [process] looks up are keys of [color_map]. *)
Definition colors_known (p : Params) : bool :=
  match dict_get color_map (font_color p) with
  | None => false
  | Some _ =>
      if outline_enabled p && negb (outline_color p =? "none")
      then match dict_get color_map (outline_color p) with
           | None => false | Some _ => true end
      else true
  end.

(** A batch of [b] frames of [h] rows, [w] columns and 3 channels. *)
Definition rgb_batch (t : Tensor) (b h w : nat) : Prop :=
  shape t = [b; h; w; 3%nat] /\ well_formed t = true.

(** ** Sample inputs *)

Module Samples.

Fixpoint has_nul (s : string) : bool :=
  match s with
  | EmptyString => false
  | String c s' => (nat_of_ascii c =? 0)%nat || has_nul s'
  end.

(** The font loader of the image library, over the files [available]: a
    size that is not positive and a NUL character in the path are
    [ValueError]s, a file that is not available is an [OSError]. *)
Definition pillow_outcome (available : string -> bool) (path : string)
           (font_size : Z) : LoadOutcome :=
  if (font_size <=? 0)%Z
  then LoadValueError "font size must be greater than 0"
  else if has_nul path then LoadValueError "embedded null byte"
  else if available path then Loaded else LoadOSError.

(** The conversion of an out-of-range product on a machine that wraps. *)
Definition wrapping (v : Q) : byte :=
  byte_of_Z (Qtrunc (round_float32 (v * 255))).

(** A Linux host without any font file, with a recent image library;
    every glyph is 6 pixels wide and the ink covers the pixel column of
    the origin. *)
Definition bare_host : Host :=
  {| platform_system := "Linux";
     environ_get_WINDIR := fun d => d;
     expanduser := fun s => s;
     os_path_join := fun a b => a ++ "/" ++ b;
     os_path_exists := fun _ => false;
     truetype_outcome := pillow_outcome (fun _ => false);
     textbbox := Some (fun s _ => (0, 2, 6 * Z.of_nat (String.length s), 11));
     textsize := fun s _ => (6 * Z.of_nat (String.length s), 11);
     stroke_supported := true;
     text_ink := fun call px py c old =>
                   match fill call with
                   | Some (r, g, b) =>
                       if (Z.of_nat px =? fst (xy call))%Z
                       then byte_of_Z (nth c [r; g; b] 0%Z) else old
                   | None => old
                   end;
     astype_uint8_undefined := wrapping |}.

(** The defaults of [INPUT_TYPES], with the first choice where it declares
    no default. *)
Definition defaults : Params :=
  {| font_size := 32; font_color := "white"; font := "Arial";
     h_position := "left"; v_position := "top";
     h_padding := 20; v_padding := 20; num_padding := 3;
     prefix_text := "Frame"; outline_enabled := false;
     outline_color := "black"; stroke_width := 1 |}.

(** Bottom right, with paddings far larger than the sample frames. *)
Definition far_corner : Params :=
  {| font_size := 32; font_color := "white"; font := "Arial";
     h_position := "right"; v_position := "bottom";
     h_padding := 1000; v_padding := 1000; num_padding := 3;
     prefix_text := "Frame"; outline_enabled := false;
     outline_color := "black"; stroke_width := 1 |}.

(** A font that the node does not know and no directory has. *)
Definition missing_font : Params :=
  {| font_size := 32; font_color := "white"; font := "NoSuchFont";
     h_position := "left"; v_position := "top";
     h_padding := 20; v_padding := 20; num_padding := 3;
     prefix_text := "Frame"; outline_enabled := false;
     outline_color := "black"; stroke_width := 1 |}.

(** A font name with a NUL character in it. *)
Definition nul_font : Params :=
  {| font_size := 32; font_color := "white";
     font := String "a" (String "000" (String "b" EmptyString));
     h_position := "left"; v_position := "top";
     h_padding := 20; v_padding := 20; num_padding := 3;
     prefix_text := "Frame"; outline_enabled := false;
     outline_color := "black"; stroke_width := 1 |}.

(** The defaults with a font size of 0. *)
Definition zero_size : Params :=
  {| font_size := 0; font_color := "white"; font := "Arial";
     h_position := "left"; v_position := "top";
     h_padding := 20; v_padding := 20; num_padding := 3;
     prefix_text := "Frame"; outline_enabled := false;
     outline_color := "black"; stroke_width := 1 |}.

(** The defaults with a font colour that the colour table does not have. *)
Definition purple : Params :=
  {| font_size := 32; font_color := "purple"; font := "Arial";
     h_position := "left"; v_position := "top";
     h_padding := 20; v_padding := 20; num_padding := 3;
     prefix_text := "Frame"; outline_enabled := false;
     outline_color := "black"; stroke_width := 1 |}.

(** The defaults with another outline colour and stroke width. *)
Definition other_outline : Params :=
  {| font_size := 32; font_color := "white"; font := "Arial";
     h_position := "left"; v_position := "top";
     h_padding := 20; v_padding := 20; num_padding := 3;
     prefix_text := "Frame"; outline_enabled := false;
     outline_color := "red"; stroke_width := 5 |}.

(** A Linux host whose only font file is in the second font directory,
    with an old image library that draws nothing visible. *)
Definition local_fonts_host : Host :=
  {| platform_system := "Linux";
     environ_get_WINDIR := fun d => d;
     expanduser := fun s => s;
     os_path_join := fun a b => a ++ "/" ++ b;
     os_path_exists := fun path => path =? "/usr/local/share/fonts/arial.ttf";
     truetype_outcome :=
       pillow_outcome (fun path => path =? "/usr/local/share/fonts/arial.ttf");
     textbbox := None;
     textsize := fun s _ => (6 * Z.of_nat (String.length s), 11);
     stroke_supported := false;
     text_ink := fun _ _ _ _ old => old;
     astype_uint8_undefined := wrapping |}.

(** A Windows host without any font file, with the image library of
    [bare_host]. *)
Definition windows_host : Host :=
  {| platform_system := "Windows";
     environ_get_WINDIR := fun _ => "D:\WINNT";
     expanduser := fun s => "C:\Users\me" ++ s;
     os_path_join := fun a b => a ++ "\" ++ b;
     os_path_exists := fun path => path =? "D:\WINNT\Fonts\arial.ttf";
     truetype_outcome := pillow_outcome (fun _ => false);
     textbbox := textbbox bare_host;
     textsize := textsize bare_host;
     stroke_supported := stroke_supported bare_host;
     text_ink := text_ink bare_host;
     astype_uint8_undefined := astype_uint8_undefined bare_host |}.

Definition pixels (n : nat) : list Q := repeat (1 # 2) n.

(** One frame of 2 rows and 2 columns. *)
Definition one_frame : Tensor :=
  {| shape := [1; 2; 2; 3]%nat;
     data := [0; 1; 1 # 2; 5 # 2; -(3 # 10); 1 # 3; 0; 0; 0; 1; 1; 1]%Q |}.

(** One frame of 1 row and 1 column whose samples are exact in single
    precision. *)
Definition exact_frame : Tensor :=
  {| shape := [1; 1; 1; 3]%nat; data := [0; 63 # 128; 1]%Q |}.

(** Two frames of 1 row and 2 columns. *)
Definition two_frames : Tensor :=
  {| shape := [2; 1; 2; 3]%nat; data := pixels 12 |}.

(** No frame at all. *)
Definition empty_batch : Tensor :=
  {| shape := [0; 2; 2; 3]%nat; data := [] |}.

(** One RGBA frame. *)
Definition rgba_frame : Tensor :=
  {| shape := [1; 1; 2; 4]%nat; data := pixels 8 |}.

(** No RGBA frame at all. *)
Definition empty_rgba : Tensor :=
  {| shape := [0; 1; 2; 4]%nat; data := [] |}.

End Samples.

(** ** Vocabulary of the statements *)

(** The image that [process_frame] hands to the drawing code. *)
Definition frame_image (host : Host) (t : Tensor) (i : nat) : PILImage :=
  fromarray (astype_uint8 host (tensor_get t i)).

(** The paths that [resolve_font] tries, in order: the font file as it
    is, then the font file in each font directory where it exists. *)
Definition font_candidates (host : Host) (font : string) : list string :=
  let font_file := font_map_get font in
  font_file ::
  filter (os_path_exists host)
         (map (fun font_dir => os_path_join host font_dir font_file)
              (font_dirs host)).

(** How a list of candidates is resolved: the first candidate that loads
    is used; a candidate that fails with [OSError] is passed over; a
    candidate on which the loader raises [ValueError] ends the search with
    that exception; when every candidate fails with [OSError] the default
    font is used. *)
Inductive Resolution : Type :=
| UseFont (path : string)
| UseDefault
| Propagate (msg : string).

Fixpoint first_candidate (host : Host) (font_size : Z) (candidates : list string)
  : Resolution :=
  match candidates with
  | [] => UseDefault
  | path :: candidates' =>
      match truetype_outcome host path font_size with
      | Loaded => UseFont path
      | LoadOSError => first_candidate host font_size candidates'
      | LoadValueError msg => Propagate msg
      end
  end.

(** [len(t)] of a tensor. *)
Definition len (t : Tensor) : nat := nth 0 (shape t) 0%nat.

(** [images] is a tensor with four dimensions. *)
Definition four_dimensional (images : PyObject) : Prop :=
  match images with
  | NotATensor => False
  | TorchTensor t => List.length (shape t) = 4%nat
  end.

(** Some frame of the batch does not have three channels. *)
Definition some_frame_not_rgb (images : PyObject) : Prop :=
  match images with
  | NotATensor => False
  | TorchTensor t =>
      exists i, (i < len t)%nat /\ nth 2 (shape (tensor_get t i)) 0%nat <> 3%nat
  end.

(** The call raises the exception of invalid input. *)
Definition raises_ValueError {A} (m : M A) : Prop :=
  exists msg, snd m = inl (ValueError msg).

(** A value that equals [k/255] for an integer [k] between 0 and 255. *)
Definition eight_bit_level (v : Q) : Prop :=
  exists k : Z, (0 <= k <= 255)%Z /\ (v == k # 255)%Q.

(** The single-precision quotient [float32(k) / 255.0] of an integer [k]
    between 0 and 255: a number between 0 and 1, within [2^-25] of
    [k/255], and a multiple of [1/255] only when [k] is 0 or 255. *)
Definition float32_level (v : Q) : Prop :=
  exists k : Z,
    (0 <= k <= 255)%Z /\ v = round_float32 (k # 255) /\
    (0 <= v)%Q /\ (v <= 1)%Q /\
    (Qabs (v - (k # 255)) <= 1 # 33554432)%Q /\
    (eight_bit_level v <-> k = 0 \/ k = 255).

(** The checks of [float32_level] on the level [k], as a computation. *)
Definition level_check (k : Z) : bool :=
  let v := round_float32 (k # 255) in
  Qle_bool 0 v && Qle_bool v 1
  && Qle_bool (Qabs (v - (k # 255))) (1 # 33554432)
  && Bool.eqb ((Qnum (v * 255) mod Zpos (Qden (v * 255)) =? 0)%Z)
              ((k =? 0)%Z || (k =? 255)%Z).

(** Two parameter records that differ at most in [outline_color] and
    [stroke_width]. *)
Definition same_but_outline (p q : Params) : Prop :=
  font_size p = font_size q /\ font_color p = font_color q /\
  font p = font q /\
  h_position p = h_position q /\ v_position p = v_position q /\
  h_padding p = h_padding q /\ v_padding p = v_padding q /\
  num_padding p = num_padding q /\ prefix_text p = prefix_text q /\
  outline_enabled p = outline_enabled q.

(** Two hosts with the same image library and the same numeric
    conversions; their operating systems, environments and file systems
    may differ. *)
Definition same_libraries (host1 host2 : Host) : Prop :=
  textbbox host1 = textbbox host2 /\ textsize host1 = textsize host2 /\
  stroke_supported host1 = stroke_supported host2 /\
  text_ink host1 = text_ink host2 /\
  astype_uint8_undefined host1 = astype_uint8_undefined host2.

(** ** Font discovery and the declared inputs *)

(** The outcome of [subprocess.run(["fc-list", ":file"], ...)]: the command
    cannot be started ([FileNotFoundError] or a [SubprocessError]), or it
    ran and left a return code and its standard output. *)
Inductive FcList : Type :=
| FcUnavailable
| FcRan (returncode : Z) (fc_stdout : string).

(** What [_get_system_fonts] needs beyond the [Host] of [process]. *)
Record FontSystem : Type := {
  fs_host : Host;
  run_fc_list : FcList;
  (** [glob.glob] *)
  glob_glob : string -> list string;
  (** [os.path.basename] *)
  os_path_basename : string -> string;
  (** [os.path.splitext] *)
  os_path_splitext : string -> string * string
}.

(** The line boundaries of [str.splitlines] among the code points below
    256, the carriage return apart. *)
Definition is_linebreak (c : ascii) : bool :=
  let n := nat_of_ascii c in
  ((10 <=? n) && (n <=? 12) || (28 <=? n) && (n <=? 30) || (n =? 133))%nat.

Definition is_CR (c : ascii) : bool := (nat_of_ascii c =? 13)%nat.
Definition is_LF (c : ascii) : bool := (nat_of_ascii c =? 10)%nat.

(** [s.splitlines()], with [line] the part of the current line read so
    far: a carriage return followed by a line feed is one boundary, and a
    boundary at the very end opens no further line. *)
Fixpoint splitlines_from (line s : string) : list string :=
  match s with
  | EmptyString => match line with EmptyString => [] | _ => [line] end
  | String c s' =>
      if is_CR c
      then match s' with
           | String c' s'' =>
               if is_LF c' then line :: splitlines_from "" s''
               else line :: splitlines_from "" s'
           | EmptyString => line :: splitlines_from "" s'
           end
      else if is_linebreak c then line :: splitlines_from "" s'
      else splitlines_from (line ++ String c "") s'
  end.

Definition splitlines (s : string) : list string := splitlines_from "" s.

(** [line.split(":")[0]] *)
Fixpoint before_colon (line : string) : string :=
  match line with
  | EmptyString => EmptyString
  | String c line' =>
      if (c =? ":")%char then EmptyString else String c (before_colon line')
  end.

(** Insertion into an increasing list without repetition. *)
Fixpoint insert_sorted (s : string) (l : list string) : list string :=
  match l with
  | [] => [s]
  | x :: l' =>
      match String.compare s x with
      | Lt => s :: l
      | Eq => l
      | Gt => x :: insert_sorted s l'
      end
  end.

(** [sorted(set(l))] *)
Definition sorted_set (l : list string) : list string :=
  fold_right insert_sorted [] l.

(** Lines 14 and 73. *)
Definition fallback_fonts : list string :=
  ["Arial"; "DejaVuSans"; "Times New Roman"; "Courier New"].

(** Lines 55-61: the paths reported by [fc-list], when it ran and
    returned 0. *)
Definition fc_list_paths (fs : FontSystem) : list string :=
  match run_fc_list fs with
  | FcRan returncode fc_stdout =>
      if (returncode =? 0)%Z
      then map before_colon (splitlines fc_stdout) else []
  | FcUnavailable => []
  end.

(** Lines 64-66: the TrueType files of the font directories that exist. *)
Definition directory_paths (fs : FontSystem) : list string :=
  flat_map
    (fun font_dir =>
       if os_path_exists (fs_host fs) font_dir
       then glob_glob fs (os_path_join (fs_host fs) font_dir "*.ttf")
       else [])
    (font_dirs (fs_host fs)).

(** [font_paths] before line 69. *)
Definition font_paths (fs : FontSystem) : list string :=
  (fc_list_paths fs ++ directory_paths fs)%list.

(** [os.path.splitext(os.path.basename(f))[0]] *)
Definition font_name (fs : FontSystem) (f : string) : string :=
  fst (os_path_splitext fs (os_path_basename fs f)).

(** Lines 41-75: [_get_system_fonts]. *)
Definition get_system_fonts (fs : FontSystem) : list string :=
  let font_list := sorted_set (map (font_name fs) (font_paths fs)) in
  match font_list with
  | [] => fallback_fonts
  | _ => font_list
  end.

(** One entry of the dictionary returned by [INPUT_TYPES]. *)
Inductive InputSpec : Type :=
| IMAGE
| INT (default min max : Z) (step : option Z)
| CHOICE (options : list string) (default : option string)
| STRING (default : string) (multiline : bool)
| BOOLEAN (default : bool).

(** Lines 10-32: the "required" dictionary of [INPUT_TYPES]. *)
Definition INPUT_TYPES (fs : FontSystem) : dict InputSpec :=
  let font_list := get_system_fonts fs in
  let font_list :=
    match font_list with
    | [] => ["Arial"; "DejaVuSans"; "Times New Roman"; "Courier New"]
    | _ => font_list
    end in
  [("images", IMAGE);
   ("font_size", INT 32 8 200 None);
   ("font_color",
    CHOICE ["white"; "black"; "red"; "green"; "blue"; "yellow"; "cyan";
            "magenta"] None);
   ("font", CHOICE font_list None);
   ("h_position", CHOICE ["left"; "center"; "right"] (Some "left"));
   ("v_position", CHOICE ["top"; "center"; "bottom"] (Some "top"));
   ("h_padding", INT 20 0 1000 None);
   ("v_padding", INT 20 0 1000 None);
   ("num_padding", INT 3 1 5 (Some 1));
   ("prefix_text", STRING "Frame" false);
   ("outline_enabled", BOOLEAN false);
   ("outline_color",
    CHOICE ["none"; "white"; "black"; "red"; "green"; "blue"; "yellow";
            "cyan"; "magenta"] (Some "black"));
   ("stroke_width", INT 1 0 5 (Some 1))].

(** ** Closed forms of the loop *)

(** The [draw.text] call that takes effect on frame [i]: with the stroke
    when one is asked for and the image library supports it. *)
Definition drawn_call (host : Host) (p : Params) (f : Font)
           (fc oc : option RGB) (img : PILImage) (i : nat) : TextCall :=
  let call := text_call host p f fc img i in
  match requested_stroke p oc with
  | Some s => if stroke_supported host then with_stroke call s else call
  | None => call
  end.

(** What one frame prints. *)
Definition frame_log (host : Host) (p : Params) (oc : option RGB) : list string :=
  match requested_stroke p oc with
  | Some _ =>
      if stroke_supported host then []
      else ["Text outline not supported in this Pillow version; rendering without outline"]
  | None => []
  end.

(** The trace of the loop body for frame [i]. *)
Definition frame_events (host : Host) (p : Params) (f : Font)
           (fc oc : option RGB) (t : Tensor) (i : nat) : list Event :=
  (map Printed (frame_log host p oc) ++
   [DrawText (frame_image host t i)
             (drawn_call host p f fc oc (frame_image host t i) i)])%list.

(** What the loop appends to [output_images] for frame [i]. *)
Definition frame_out (host : Host) (p : Params) (f : Font)
           (fc oc : option RGB) (t : Tensor) (i : nat) : Tensor :=
  from_numpy_div255
    (np_array (draw_text host (frame_image host t i)
                         (drawn_call host p f fc oc (frame_image host t i) i))).

(** The colour that line 89 binds to [outline_color_rgb], when the lookup
    does not fail. *)
Definition outline_rgb_of (p : Params) : option RGB :=
  if outline_enabled p && negb (outline_color p =? "none")
  then match dict_get color_map (outline_color p) with
       | Some c => c
       | None => None
       end
  else None.

(** The colour that line 88 binds to [font_color_rgb], when the lookup
    does not fail. *)
Definition font_rgb_of (p : Params) : option RGB :=
  match dict_get color_map (font_color p) with
  | Some c => c
  | None => None
  end.

(** ** Updates of the parameters *)

Definition set_h_position (s : string) (p : Params) : Params :=
  {| font_size := font_size p; font_color := font_color p; font := font p;
     h_position := s; v_position := v_position p;
     h_padding := h_padding p; v_padding := v_padding p;
     num_padding := num_padding p; prefix_text := prefix_text p;
     outline_enabled := outline_enabled p;
     outline_color := outline_color p; stroke_width := stroke_width p |}.

Definition set_v_position (s : string) (p : Params) : Params :=
  {| font_size := font_size p; font_color := font_color p; font := font p;
     h_position := h_position p; v_position := s;
     h_padding := h_padding p; v_padding := v_padding p;
     num_padding := num_padding p; prefix_text := prefix_text p;
     outline_enabled := outline_enabled p;
     outline_color := outline_color p; stroke_width := stroke_width p |}.

Definition set_outline_enabled (b : bool) (p : Params) : Params :=
  {| font_size := font_size p; font_color := font_color p; font := font p;
     h_position := h_position p; v_position := v_position p;
     h_padding := h_padding p; v_padding := v_padding p;
     num_padding := num_padding p; prefix_text := prefix_text p;
     outline_enabled := b;
     outline_color := outline_color p; stroke_width := stroke_width p |}.

(** Lines 89 and 168: an outline is asked for. *)
Definition outline_requested (p : Params) : bool :=
  outline_enabled p && negb (outline_color p =? "none")
  && (0 <? stroke_width p)%Z.

Definition rank_message : string :=
  "Input 'images' must be a 4D tensor (batch, height, width, channels)".

Definition channels_message : string :=
  "Input images must have 3 channels (RGB)".

Definition outline_warning : string :=
  "Text outline not supported in this Pillow version; rendering without outline".

(** ** Further sample inputs *)

Module MoreSamples.

(** The defaults, centred on both axes. *)
Definition centered : Params :=
  set_v_position "center" (set_h_position "center" Samples.defaults).

(** Two frames that share their second frame with [Samples.two_frames]. *)
Definition other_first_frame : Tensor :=
  {| shape := [2; 1; 2; 3]%nat;
     data := ([0; 0; 0; 1; 1; 1]%Q ++ Samples.pixels 6)%list |}.

End MoreSamples.

(** ** Vocabulary of font discovery *)

(** The strict order of Python on strings: by code points. *)
Definition string_lt (a b : string) : Prop := String.compare a b = Lt.

Definition set_run_fc_list (r : FcList) (fs : FontSystem) : FontSystem :=
  {| fs_host := fs_host fs; run_fc_list := r; glob_glob := glob_glob fs;
     os_path_basename := os_path_basename fs;
     os_path_splitext := os_path_splitext fs |}.

(** No character of [s] ends a line. *)
Fixpoint one_line (s : string) : bool :=
  match s with
  | EmptyString => true
  | String c s' => negb (is_CR c) && negb (is_linebreak c) && one_line s'
  end.

Fixpoint no_colon (s : string) : bool :=
  match s with
  | EmptyString => true
  | String c s' => negb (c =? ":")%char && no_colon s'
  end.

(** The output of [fc-list : file] for the given files: one line per file,
    the path, a colon, and whatever else the line holds. *)
Fixpoint fc_list_output (entries : list (string * string)) : string :=
  match entries with
  | [] => EmptyString
  | (path, rest) :: entries' =>
      path ++ ":" ++ rest ++ String "010" (fc_list_output entries')
  end.

Module FontSamples.

(** The part of a path after its last slash. *)
Fixpoint basename_from (name s : string) : string :=
  match s with
  | EmptyString => name
  | String c s' =>
      if (c =? "/")%char then basename_from "" s'
      else basename_from (name ++ String c "") s'
  end.

(** The part of a file name before its last dot, if it has one. *)
Fixpoint before_last_dot (s : string) : option string :=
  match s with
  | EmptyString => None
  | String c s' =>
      match before_last_dot s' with
      | Some r => Some (String c r)
      | None => if (c =? ".")%char then Some EmptyString else None
      end
  end.

Definition splitext (s : string) : string * string :=
  match before_last_dot s with
  | Some (String c r) =>
      (String c r,
       substring (S (String.length r)) (String.length s) s)
  | _ => (s, EmptyString)
  end.

(** A Linux system where [fc-list] knows two files and the second font
    directory holds two more. *)
Definition linux : FontSystem :=
  {| fs_host :=
       {| platform_system := "Linux";
          environ_get_WINDIR := fun d => d;
          expanduser := fun s => s;
          os_path_join := fun a b => a ++ "/" ++ b;
          os_path_exists := fun path => path =? "/usr/local/share/fonts";
          truetype_outcome := Samples.pillow_outcome (fun _ => false);
          textbbox := None;
          textsize := fun s _ => (6 * Z.of_nat (String.length s), 11);
          stroke_supported := false;
          text_ink := fun _ _ _ _ old => old;
          astype_uint8_undefined := Samples.wrapping |};
     run_fc_list :=
       FcRan 0 (fc_list_output
                  [("/usr/share/fonts/truetype/Vera.ttf", " ");
                   ("/opt/fonts/Lato.otf", " ")]);
     glob_glob := fun pattern =>
                    if pattern =? "/usr/local/share/fonts/*.ttf"
                    then ["/usr/local/share/fonts/Vera.ttf";
                          "/usr/local/share/fonts/Aller.ttf"]
                    else [];
     os_path_basename := basename_from "";
     os_path_splitext := splitext |}.

(** A system without [fc-list] and without font directories. *)
Definition bare : FontSystem :=
  {| fs_host := Samples.bare_host;
     run_fc_list := FcUnavailable;
     glob_glob := fun _ => [];
     os_path_basename := basename_from "";
     os_path_splitext := splitext |}.

End FontSamples.

(** * Properties *)

(** ** The monad *)

Lemma bind_returns {A B} (m : M A) (k : A -> M B) out b :
  bind m k = (out, inr b) ->
  exists out1 a out2,
    m = (out1, inr a) /\ k a = (out2, inr b) /\ out = (out1 ++ out2)%list.
Proof.
  destruct m as [out1 [e | a]]; simpl; [discriminate |].
  destruct (k a) as [out2 r] eqn:Hk.
  intros H; injection H as <- ->.
  now exists out1, a, out2.
Qed.

Lemma bind_ret_inr {A B} (m : M A) (k : A -> M B) out a :
  m = (out, inr a) -> bind m k = ((out ++ fst (k a))%list, snd (k a)).
Proof. intros ->; simpl; now destruct (k a). Qed.

Lemma returned_bind_none {A B} (m : M A) (k : A -> M B) :
  (forall a, returned (k a) = None) -> returned (bind m k) = None.
Proof.
  intros H. destruct m as [o [e | a]]; simpl; [reflexivity |].
  specialize (H a). unfold returned in *. now destruct (k a).
Qed.

(** Peel the next [bind] of a computation that returned, in hypothesis [H]. *)
Ltac bind_returned H :=
  apply bind_returns in H as (? & ? & ? & ? & H & _).

(** Peel the next [bind] of a goal that says nothing is returned. *)
Ltac bind_not_returned := apply returned_bind_none; intro.

Lemma mapM_returns {A B} (body : A -> M B) xs out ys :
  mapM body xs = (out, inr ys) ->
  Forall2 (fun x y => exists o, body x = (o, inr y)) xs ys.
Proof.
  revert out ys; induction xs as [| x xs IH]; simpl; intros out ys H.
  - injection H as _ <-; constructor.
  - apply bind_returns in H as (o1 & y & o2 & Hy & H & _).
    apply bind_returns in H as (o3 & ys' & o4 & Hys & H & _).
    injection H as _ <-.
    constructor; eauto.
Qed.

Lemma mapM_all_return {A B} (body : A -> M B) (P : A -> B -> Prop) xs :
  (forall x, In x xs -> exists o y, body x = (o, inr y) /\ P x y) ->
  exists out ys, mapM body xs = (out, inr ys) /\ Forall2 P xs ys.
Proof.
  induction xs as [| x xs IH]; intros Hall; simpl.
  - exists [], []; split; [reflexivity | constructor].
  - destruct (Hall x (or_introl eq_refl)) as (o & y & Hy & HP).
    destruct IH as (out & ys & Hys & HF).
    { intros x' Hin; apply Hall; now right. }
    exists (o ++ (out ++ []))%list, (y :: ys); split.
    + rewrite Hy; simpl; rewrite Hys; reflexivity.
    + now constructor.
Qed.

(** ** Strings *)

Lemma rstrip_empty_iff s : rstrip s = "" <-> blank s = true.
Proof.
  induction s as [| c s IH]; simpl; [tauto |].
  destruct (rstrip s) eqn:Hr.
  - destruct (isspace c); simpl; [tauto |].
    split; discriminate.
  - split; [discriminate |].
    intros [_ Hb]%andb_prop. apply IH in Hb; discriminate.
Qed.

Lemma lstrip_blank s : blank (lstrip s) = blank s.
Proof.
  induction s as [| c s IH]; simpl; [reflexivity |].
  destruct (isspace c) eqn:Hc; simpl; [assumption | now rewrite Hc].
Qed.

(** [s.strip()] is falsy exactly when [s] is blank: empty or made of
    whitespace only. *)
Lemma strip_truthy s : truthy (strip s) = negb (blank s).
Proof.
  unfold strip.
  destruct (blank s) eqn:Hb; rewrite <- lstrip_blank in Hb.
  - apply rstrip_empty_iff in Hb; now rewrite Hb.
  - destruct (rstrip (lstrip s)) eqn:Hr; [| reflexivity].
    apply rstrip_empty_iff in Hr; congruence.
Qed.

Lemma string_length_app (s1 s2 : string) :
  String.length (s1 ++ s2) = (String.length s1 + String.length s2)%nat.
Proof. induction s1; simpl; congruence. Qed.

Lemma zeros_length n : String.length (zeros n) = n.
Proof. induction n; simpl; congruence. Qed.

Lemma uint_of_string_zeros n s :
  NilEmpty.uint_of_string (zeros n ++ s) =
  option_map (Nat.iter n Decimal.D0) (NilEmpty.uint_of_string s).
Proof.
  induction n as [| n IH]; simpl.
  - now destruct (NilEmpty.uint_of_string s).
  - rewrite IH. now destruct (NilEmpty.uint_of_string s).
Qed.

Lemma of_uint_leading_zeros n d :
  Nat.of_uint (Nat.iter n Decimal.D0 d) = Nat.of_uint d.
Proof. induction n; simpl; [reflexivity | exact IHn]. Qed.

Lemma parse_decimal_format_0d width n :
  parse_decimal (format_0d width n) = Some n.
Proof.
  unfold parse_decimal, format_0d, decimal.
  rewrite uint_of_string_zeros, NilEmpty.usu; simpl.
  now rewrite of_uint_leading_zeros, DecimalNat.Unsigned.of_to.
Qed.

Lemma format_0d_length width n :
  String.length (format_0d width n) = Nat.max width (String.length (decimal n)).
Proof.
  unfold format_0d; rewrite string_length_app, zeros_length; lia.
Qed.

Lemma format_0d_wide width n :
  (width <= String.length (decimal n))%nat -> format_0d width n = decimal n.
Proof.
  intros H; unfold format_0d.
  replace (width - String.length (decimal n))%nat with 0%nat by lia.
  reflexivity.
Qed.

(** ** Buffers and slices *)

Lemma mapi_from_length {A B} (f : nat -> A -> B) k l :
  List.length (mapi_from f k l) = List.length l.
Proof. revert k; induction l; simpl; intros; [reflexivity | now rewrite IHl]. Qed.

Lemma slice_length {A} (l : list A) (n i b : nat) :
  List.length l = (b * n)%nat -> (i < b)%nat ->
  List.length (firstn n (skipn (i * n) l)) = n.
Proof.
  intros Hl Hi. rewrite length_firstn, length_skipn, Hl. nia.
Qed.

Lemma draw_text_size host img call : size (draw_text host img call) = size img.
Proof. reflexivity. Qed.

Lemma draw_text_length host img call :
  List.length (im (draw_text host img call)) = List.length (im img).
Proof. apply mapi_from_length. Qed.

Lemma tensor_get_shape t d rest i :
  shape t = d :: rest -> shape (tensor_get t i) = rest.
Proof. unfold tensor_get; simpl; now intros ->. Qed.

Lemma tensor_get_well_formed t d rest i :
  shape t = d :: rest -> well_formed t = true -> (i < d)%nat ->
  well_formed (tensor_get t i) = true.
Proof.
  unfold well_formed, tensor_get; simpl; intros Hs Hw Hi.
  rewrite Hs in *; simpl in *.
  apply Nat.eqb_eq in Hw; apply Nat.eqb_eq.
  now apply slice_length with (b := d).
Qed.

(** ** The batch *)

Lemma Forall2_length_eq {A B} (P : A -> B -> Prop) xs ys :
  Forall2 P xs ys -> List.length xs = List.length ys.
Proof. induction 1; simpl; congruence. Qed.

Lemma Forall2_at {A B} (P : A -> B -> Prop) xs ys i dx dy :
  Forall2 P xs ys -> (i < List.length xs)%nat -> P (nth i xs dx) (nth i ys dy).
Proof.
  intros H; revert i; induction H; simpl; intros i Hi; [lia |].
  destruct i; [assumption | apply IHForall2; lia].
Qed.

Lemma Forall2_right {A B} (P : A -> B -> Prop) (Q : B -> Prop) xs ys :
  Forall2 P xs ys -> (forall x y, P x y -> Q y) -> Forall Q ys.
Proof. induction 1; intros HQ; constructor; eauto. Qed.

Lemma concat_uniform_length {A} (ls : list (list A)) n :
  Forall (fun l => List.length l = n) ls ->
  List.length (List.concat ls) = (List.length ls * n)%nat.
Proof.
  induction 1 as [| l ls Hl _ IH]; simpl; [reflexivity |].
  rewrite length_app, IH, Hl; reflexivity.
Qed.

Lemma concat_uniform_slice {A} (ls : list (list A)) n i :
  Forall (fun l => List.length l = n) ls -> (i < List.length ls)%nat ->
  firstn n (skipn (i * n) (List.concat ls)) = nth i ls [].
Proof.
  intros H; revert i; induction H as [| l ls Hl _ IH]; simpl; intros i Hi; [lia |].
  destruct i as [| i]; simpl.
  - rewrite firstn_app, Hl, Nat.sub_diag, <- Hl, firstn_all.
    simpl; apply app_nil_r.
  - rewrite skipn_app, Hl.
    rewrite (skipn_all2 l) by lia.
    replace (n + i * n - n)%nat with (i * n)%nat by lia.
    simpl; apply IH; lia.
Qed.

Lemma stack_uniform ts s :
  ts <> [] -> Forall (fun t => shape t = s) ts ->
  stack ts =
    ([], inr {| shape := List.length ts :: s; data := List.concat (map data ts) |}).
Proof.
  intros Hne HF. destruct ts as [| t0 ts']; [congruence |].
  unfold stack.
  assert (H0 : shape t0 = s) by now inversion HF.
  replace (forallb (fun t => shape_eqb (shape t) (shape t0)) (t0 :: ts'))
    with true.
  - now rewrite H0.
  - symmetry; apply forallb_forall; intros t Hin.
    rewrite Forall_forall in HF. rewrite (HF t Hin), H0.
    unfold shape_eqb. now destruct (list_eq_dec Nat.eq_dec s s).
Qed.

(** ** More on the monad *)

Lemma bind_ret_l {A B} (a : A) (k : A -> M B) : bind ([], inr a) k = k a.
Proof. simpl. now destruct (k a). Qed.

Lemma bind_congr {A B} (m : M A) (k k' : A -> M B) :
  (forall a, k a = k' a) -> bind m k = bind m k'.
Proof. intros H. destruct m as [o [e | a]]; simpl; [reflexivity | now rewrite H]. Qed.

Lemma snd_bind_ext {A B} (m m' : M A) (k k' : A -> M B) :
  snd m = snd m' -> (forall a, snd (k a) = snd (k' a)) ->
  snd (bind m k) = snd (bind m' k').
Proof.
  destruct m as [o [e | a]], m' as [o' [e' | a']]; simpl;
    intros Hm Hk; try discriminate.
  - now injection Hm as <-.
  - injection Hm as <-. specialize (Hk a).
    destruct (k a), (k' a); exact Hk.
Qed.

Lemma snd_mapM_ext {A B} (f g : A -> M B) xs :
  (forall x, snd (f x) = snd (g x)) -> snd (mapM f xs) = snd (mapM g xs).
Proof.
  intros H. induction xs as [| x xs IH]; simpl; [reflexivity |].
  apply snd_bind_ext; [apply H |]. intros y.
  apply snd_bind_ext; [exact IH | reflexivity].
Qed.

Lemma mapM_exact {A B} (body : A -> M B) (lg : A -> list Event)
      (val : A -> B) xs :
  (forall x, In x xs -> body x = (lg x, inr (val x))) ->
  mapM body xs = (List.concat (map lg xs), inr (map val xs)).
Proof.
  induction xs as [| x xs IH]; intros Hall; simpl; [reflexivity |].
  rewrite (Hall x (or_introl eq_refl)); simpl.
  rewrite IH by (intros x' Hin; apply Hall; now right).
  simpl. now rewrite app_nil_r.
Qed.

Lemma mapM_ext {A B} (f g : A -> M B) xs :
  (forall x, In x xs -> f x = g x) -> mapM f xs = mapM g xs.
Proof.
  induction xs as [| x xs IH]; intros Hall; simpl; [reflexivity |].
  rewrite (Hall x (or_introl eq_refl)).
  rewrite IH by (intros x' Hin; apply Hall; now right).
  reflexivity.
Qed.

Lemma mapM_raises {A B} (body : A -> M B) xs out e :
  mapM body xs = (out, inl e) ->
  exists x o, In x xs /\ body x = (o, inl e).
Proof.
  revert out; induction xs as [| x xs IH]; simpl; intros out H; [discriminate |].
  destruct (body x) as [o [e' | y]] eqn:Hx; simpl in H.
  - injection H as _ <-. exists x, o; auto.
  - destruct (mapM body xs) as [o' [e' | ys]] eqn:Hxs; simpl in H.
    + injection H as _ <-.
      destruct (IH _ eq_refl) as (x' & o2 & Hin & Hb). exists x', o2; auto.
    + discriminate.
Qed.

(** ** Traces *)

Lemma printed_app tr1 tr2 : printed (tr1 ++ tr2) = (printed tr1 ++ printed tr2)%list.
Proof.
  induction tr1 as [| [line | img call] tr1 IH]; simpl; [reflexivity | |];
    now rewrite IH.
Qed.

Lemma draws_app tr1 tr2 : draws (tr1 ++ tr2) = (draws tr1 ++ draws tr2)%list.
Proof.
  induction tr1 as [| [line | img call] tr1 IH]; simpl; [reflexivity | |];
    now rewrite IH.
Qed.

Lemma printed_map_Printed ls : printed (map Printed ls) = ls.
Proof. induction ls; simpl; congruence. Qed.

Lemma draws_map_Printed ls : draws (map Printed ls) = [].
Proof. induction ls; simpl; congruence. Qed.

Lemma printed_concat {A} (f : A -> list Event) xs :
  printed (List.concat (map f xs)) = List.concat (map (fun x => printed (f x)) xs).
Proof.
  induction xs as [| x xs IH]; simpl; [reflexivity |].
  now rewrite printed_app, IH.
Qed.

Lemma draws_concat {A} (f : A -> list Event) xs :
  draws (List.concat (map f xs)) = List.concat (map (fun x => draws (f x)) xs).
Proof.
  induction xs as [| x xs IH]; simpl; [reflexivity |].
  now rewrite draws_app, IH.
Qed.

Lemma concat_map_singleton {A B} (f : A -> B) xs :
  List.concat (map (fun x => [f x]) xs) = map f xs.
Proof. induction xs; simpl; congruence. Qed.

Lemma concat_constant {A} (l : list A) (xs : list nat) :
  List.concat (map (fun _ => l) xs) = List.concat (repeat l (List.length xs)).
Proof. induction xs; simpl; congruence. Qed.

Lemma concat_repeat_singleton {A} (a : A) n :
  List.concat (repeat [a] n) = repeat a n.
Proof. induction n; simpl; congruence. Qed.

Lemma concat_repeat_nil {A} n : List.concat (repeat (@nil A) n) = [].
Proof. induction n; simpl; congruence. Qed.

(** ** One frame *)

Lemma frame_image_size host t b h w c i :
  shape t = [b; h; w; c] -> size (frame_image host t i) = (w, h).
Proof. unfold frame_image, fromarray, tensor_get; simpl; now intros ->. Qed.

Lemma frame_image_length host t i :
  List.length (im (frame_image host t i)) = List.length (data (tensor_get t i)).
Proof. unfold frame_image; simpl; apply length_map. Qed.

Lemma frame_events_printed host p f fc oc t i :
  printed (frame_events host p f fc oc t i) = frame_log host p oc.
Proof.
  unfold frame_events. rewrite printed_app, printed_map_Printed.
  simpl. apply app_nil_r.
Qed.

Lemma frame_events_draws host p f fc oc t i :
  draws (frame_events host p f fc oc t i) =
    [(frame_image host t i, drawn_call host p f fc oc (frame_image host t i) i)].
Proof.
  unfold frame_events. now rewrite draws_app, draws_map_Printed.
Qed.

(** A frame with three channels is drawn once and converted back. *)
Lemma process_frame_exact host p f fc oc t i :
  nth 2 (shape (tensor_get t i)) 0%nat = 3%nat ->
  process_frame host p f fc oc t i =
    (frame_events host p f fc oc t i, inr (frame_out host p f fc oc t i)).
Proof.
  intros H3. unfold process_frame.
  change (u8_shape (astype_uint8 host (tensor_get t i)))
    with (shape (tensor_get t i)).
  rewrite H3. simpl Nat.eqb. cbv iota.
  fold (frame_image host t i).
  unfold frame_events, frame_out, drawn_call, frame_log, draw_caption, draw.
  destruct (requested_stroke p oc) as [s |]; [| reflexivity].
  destruct (stroke_supported host); reflexivity.
Qed.

Lemma process_frame_rejects host p f fc oc t i :
  nth 2 (shape (tensor_get t i)) 0%nat <> 3%nat ->
  process_frame host p f fc oc t i = ([], inl (ValueError channels_message)).
Proof.
  intros H3. unfold process_frame.
  change (u8_shape (astype_uint8 host (tensor_get t i)))
    with (shape (tensor_get t i)).
  apply Nat.eqb_neq in H3. now rewrite H3.
Qed.

Lemma process_frame_raises host p f fc oc t i o e :
  process_frame host p f fc oc t i = (o, inl e) ->
  e = ValueError channels_message.
Proof.
  destruct (Nat.eq_dec (nth 2 (shape (tensor_get t i)) 0%nat) 3) as [H3 | H3].
  - rewrite (process_frame_exact host p f fc oc t i H3). discriminate.
  - rewrite (process_frame_rejects host p f fc oc t i H3).
    intros H; injection H as _ <-; reflexivity.
Qed.

Lemma text_call_caption host p f fc img i :
  caption (text_call host p f fc img i) = text (prefix_text p) (num_padding p) i.
Proof. unfold text_call. now destruct (text_extent host _ f). Qed.

Lemma text_call_xy host p f fc img i :
  xy (text_call host p f fc img i) =
  (x_origin (h_position p) (h_padding p) (Z.of_nat (fst (size img)))
            (fst (text_extent host (text (prefix_text p) (num_padding p) i) f)),
   y_origin (v_position p) (v_padding p) (Z.of_nat (snd (size img)))
            (snd (text_extent host (text (prefix_text p) (num_padding p) i) f))).
Proof. unfold text_call. now destruct (text_extent host _ f). Qed.

Lemma text_blank_cases prefix np i :
  text prefix np i =
  if blank prefix then frame_number np i
  else prefix ++ " " ++ frame_number np i.
Proof. unfold text. rewrite strip_truthy. now destruct (blank prefix). Qed.

Lemma drawn_call_fields host p f fc oc img i :
  xy (drawn_call host p f fc oc img i) = xy (text_call host p f fc img i) /\
  caption (drawn_call host p f fc oc img i) = text (prefix_text p) (num_padding p) i /\
  call_font (drawn_call host p f fc oc img i) = f /\
  fill (drawn_call host p f fc oc img i) = fc.
Proof.
  assert (H : caption (text_call host p f fc img i)
              = text (prefix_text p) (num_padding p) i /\
              call_font (text_call host p f fc img i) = f /\
              fill (text_call host p f fc img i) = fc).
  { unfold text_call. now destruct (text_extent host _ f). }
  unfold drawn_call.
  destruct (requested_stroke p oc) as [s |]; [| tauto].
  destruct (stroke_supported host); [| tauto].
  unfold with_stroke; cbn [xy caption call_font fill]. tauto.
Qed.

Lemma frame_out_shape host p f fc oc t b h w c i :
  shape t = [b; h; w; c] -> shape (frame_out host p f fc oc t i) = [h; w; 3%nat].
Proof.
  intros Hs.
  change (shape (frame_out host p f fc oc t i))
    with [snd (size (frame_image host t i));
          fst (size (frame_image host t i)); 3%nat].
  now rewrite (frame_image_size host t b h w c i Hs).
Qed.

Lemma frame_out_length host p f fc oc t i :
  List.length (data (frame_out host p f fc oc t i)) =
  List.length (data (tensor_get t i)).
Proof.
  unfold frame_out.
  change (data (from_numpy_div255 (np_array ?img)))
    with (map of_uint8 (im img)).
  now rewrite length_map, draw_text_length, frame_image_length.
Qed.

(** ** Fonts *)

Section Fonts.

Variable host : Host.

Lemma search_font_dirs_first font_file sz dirs :
  search_font_dirs host font_file sz dirs =
  match first_candidate host sz
          (filter (os_path_exists host)
                  (map (fun d => os_path_join host d font_file) dirs)) with
  | UseFont path => ([], inr (Some (FreeTypeFont path sz)))
  | UseDefault => ([], inr None)
  | Propagate msg => ([], inl (ValueError msg))
  end.
Proof.
  induction dirs as [| d dirs IH]; simpl; [reflexivity |].
  destruct (os_path_exists host _); simpl; [| exact IH].
  unfold truetype.
  destruct (truetype_outcome host _ sz); simpl; try reflexivity.
  rewrite IH. now destruct (first_candidate _ _ _).
Qed.

(** [resolve_font] takes the first candidate that loads; it passes over
    the candidates that fail with [OSError], ends with the default font
    and a warning when all do, and lets a [ValueError] of the loader
    through. *)
Lemma resolve_font_first font sz :
  resolve_font host font sz =
  match first_candidate host sz (font_candidates host font) with
  | UseFont path => ([], inr (FreeTypeFont path sz))
  | UseDefault =>
      ([Printed ("Font " ++ font_map_get font ++ " not found, using default font")],
       inr DefaultFont)
  | Propagate msg => ([], inl (ValueError msg))
  end.
Proof.
  unfold resolve_font, font_candidates, truetype at 1; simpl.
  destruct (truetype_outcome host (font_map_get font) sz); simpl;
    try reflexivity.
  rewrite search_font_dirs_first.
  now destruct (first_candidate _ _ _).
Qed.

Lemma first_candidate_propagates sz cs msg :
  first_candidate host sz cs = Propagate msg ->
  exists path, In path cs /\ truetype_outcome host path sz = LoadValueError msg.
Proof.
  induction cs as [| c cs IH]; simpl; [discriminate |].
  destruct (truetype_outcome host c sz) eqn:Hc; try discriminate.
  - intros H. destruct (IH H) as (path & Hin & Hp). exists path; auto.
  - intros H; injection H as <-. exists c; auto.
Qed.

Lemma resolve_font_raises font sz o e :
  resolve_font host font sz = (o, inl e) ->
  o = [] /\
  exists msg path,
    e = ValueError msg /\ In path (font_candidates host font) /\
    truetype_outcome host path sz = LoadValueError msg.
Proof.
  rewrite resolve_font_first.
  destruct (first_candidate host sz (font_candidates host font)) eqn:Hf;
    try discriminate.
  intros H; injection H as <- <-. split; [reflexivity |].
  destruct (first_candidate_propagates _ _ _ Hf) as (path & Hin & Hp).
  now exists msg, path.
Qed.

Lemma resolve_font_trace font sz w f :
  resolve_font host font sz = (w, inr f) ->
  draws w = [] /\
  w = map Printed
        (match f with
         | DefaultFont =>
             ["Font " ++ font_map_get font ++ " not found, using default font"]
         | FreeTypeFont _ _ => []
         end).
Proof.
  rewrite resolve_font_first.
  destruct (first_candidate host sz (font_candidates host font));
    try discriminate; intros H; injection H as <- <-; now split.
Qed.

End Fonts.

(** ** The loop *)

(** The loop on a non-empty batch of frames with three channels. *)
Lemma run_frames_exact host p f fc oc t b h w :
  shape t = [b; h; w; 3%nat] -> (0 < b)%nat ->
  run_frames host p f fc oc t =
    (List.concat (map (frame_events host p f fc oc t) (seq 0 b)),
     inr {| shape := [b; h; w; 3%nat];
            data := List.concat
                      (map (fun i => data (frame_out host p f fc oc t i))
                           (seq 0 b)) |}).
Proof.
  intros Hs Hb. unfold run_frames. rewrite Hs. simpl nth.
  rewrite (mapM_exact _ (frame_events host p f fc oc t)
                      (frame_out host p f fc oc t)).
  2:{ intros i _. apply process_frame_exact.
      now rewrite (tensor_get_shape t b [h; w; 3%nat] i Hs). }
  simpl bind.
  rewrite (stack_uniform _ [h; w; 3%nat]).
  - rewrite length_map, length_seq, map_map, app_nil_r. reflexivity.
  - destruct b; [lia |]. simpl; discriminate.
  - apply Forall_map, Forall_forall. intros i _.
    exact (frame_out_shape host p f fc oc t b h w 3 i Hs).
Qed.

Lemma run_frames_empty host p f fc oc t :
  nth 0 (shape t) 0%nat = 0%nat ->
  run_frames host p f fc oc t =
    ([], inl (RuntimeError "stack expects a non-empty TensorList")).
Proof. intros H0. unfold run_frames. now rewrite H0. Qed.

Lemma run_frames_wrong_channels host p f fc oc t b h w c :
  shape t = [S b; h; w; c] -> c <> 3%nat ->
  run_frames host p f fc oc t = ([], inl (ValueError channels_message)).
Proof.
  intros Hs Hc. unfold run_frames. rewrite Hs. simpl seq. simpl mapM.
  rewrite process_frame_rejects; [reflexivity |].
  now rewrite (tensor_get_shape t (S b) [h; w; c] 0 Hs).
Qed.

Lemma run_frames_raises host p f fc oc t o e :
  run_frames host p f fc oc t = (o, inl e) ->
  e = ValueError channels_message \/ exists msg, e = RuntimeError msg.
Proof.
  unfold run_frames.
  destruct (mapM _ _) as [o1 [e1 | ys]] eqn:Hm; simpl.
  - intros H; injection H as _ <-.
    apply mapM_raises in Hm as (i & o2 & _ & Hi).
    left; exact (process_frame_raises _ _ _ _ _ _ _ _ _ Hi).
  - unfold stack. destruct ys as [| y ys]; simpl.
    + intros H; injection H as _ <-; right; eauto.
    + destruct (_ && _); simpl; [discriminate |].
      intros H; injection H as _ <-; right; eauto.
Qed.

(** Frame [i] of the stacked batch is what the loop appended for [i]. *)
Lemma stacked_frame host p f fc oc t b h w i :
  rgb_batch t b h w -> (i < b)%nat ->
  tensor_get
    {| shape := [b; h; w; 3%nat];
       data := List.concat
                 (map (fun i => data (frame_out host p f fc oc t i))
                      (seq 0 b)) |} i
  = frame_out host p f fc oc t i.
Proof.
  intros [Hs Hw] Hi.
  set (n := numel [h; w; 3%nat]).
  assert (Hlen : List.length (data t) = (b * n)%nat).
  { unfold well_formed in Hw. apply Nat.eqb_eq in Hw.
    rewrite Hw, Hs. reflexivity. }
  assert (Hdata : Forall (fun l => List.length l = n)
                    (map (fun i => data (frame_out host p f fc oc t i))
                         (seq 0 b))).
  { apply Forall_map, Forall_forall. intros k Hk. apply in_seq in Hk.
    rewrite frame_out_length. unfold tensor_get; simpl data.
    rewrite Hs; simpl tl. apply slice_length with (b := b); [exact Hlen | lia]. }
  set (D := map (fun i => data (frame_out host p f fc oc t i)) (seq 0 b)) in *.
  change (tensor_get {| shape := [b; h; w; 3%nat]; data := List.concat D |} i)
    with {| shape := [h; w; 3%nat];
            data := firstn n (skipn (i * n) (List.concat D)) |}.
  rewrite (concat_uniform_slice _ n i Hdata)
    by (unfold D; rewrite length_map, length_seq; exact Hi).
  unfold D.
  rewrite (nth_indep _ [] (data (frame_out host p f fc oc t 0)))
    by (rewrite length_map, length_seq; exact Hi).
  rewrite (map_nth (fun i => data (frame_out host p f fc oc t i))).
  rewrite seq_nth by exact Hi. simpl Nat.add.
  pose proof (frame_out_shape host p f fc oc t b h w 3 i Hs) as Hsh.
  destruct (frame_out host p f fc oc t i) as [s d]; simpl in *; now subst.
Qed.

(** The [draw.text] calls of the loop: one per frame, in order. *)
Lemma loop_draws host p f fc oc t b :
  draws (List.concat (map (frame_events host p f fc oc t) (seq 0 b))) =
  map (fun i => (frame_image host t i,
                 drawn_call host p f fc oc (frame_image host t i) i))
      (seq 0 b).
Proof.
  rewrite draws_concat.
  rewrite (map_ext _ (fun i => [(frame_image host t i,
                                 drawn_call host p f fc oc
                                            (frame_image host t i) i)]))
    by (intros i; apply frame_events_draws).
  apply (concat_map_singleton
           (fun i => (frame_image host t i,
                      drawn_call host p f fc oc (frame_image host t i) i))).
Qed.

Lemma loop_printed host p f fc oc t b :
  printed (List.concat (map (frame_events host p f fc oc t) (seq 0 b))) =
  List.concat (repeat (frame_log host p oc) b).
Proof.
  rewrite printed_concat.
  rewrite (map_ext _ (fun _ => frame_log host p oc))
    by (intros i; apply frame_events_printed).
  now rewrite concat_constant, length_seq.
Qed.

Lemma nth_error_map_seq {A} (g : nat -> A) b i :
  (i < b)%nat -> nth_error (map g (seq 0 b)) i = Some (g i).
Proof.
  intros Hi. rewrite nth_error_map.
  rewrite (nth_error_nth' (seq 0 b) 0%nat) by (rewrite length_seq; exact Hi).
  now rewrite seq_nth.
Qed.

(** ** [process] *)

(** The declared choices of [INPUT_TYPES] are keys of [color_map]. *)
Lemma input_types_colors_known p :
  input_types_ok p = true -> colors_known p = true.
Proof.
  assert (Hin : forall name,
             mem_string name outline_colors = true -> dict_get color_map name <> None).
  { intros name Hn. apply existsb_exists in Hn as (k & Hk & He).
    apply String.eqb_eq in He; subst k.
    simpl in Hk.
    repeat (destruct Hk as [<- | Hk]; [discriminate |]). destruct Hk. }
  unfold input_types_ok. intros H.
  repeat (apply andb_prop in H as [H ?]).
  match goal with
  | Hf : mem_string (font_color p) font_colors = true,
    Ho : mem_string (outline_color p) outline_colors = true |- _ =>
      assert (Hf' : dict_get color_map (font_color p) <> None)
        by (apply Hin;
            change (mem_string (font_color p) outline_colors)
              with ((font_color p =? "none")
                    || mem_string (font_color p) font_colors);
            rewrite Hf; apply orb_true_r);
      pose proof (Hin _ Ho) as Ho'
  end.
  unfold colors_known.
  destruct (dict_get color_map (font_color p)); [| congruence].
  destruct (outline_enabled p && negb (outline_color p =? "none"));
    [| reflexivity].
  now destruct (dict_get color_map (outline_color p)).
Qed.


Lemma colors_known_rgb p :
  colors_known p = true ->
  lookup_color (font_color p) = ([], inr (font_rgb_of p)) /\
  (if outline_enabled p && negb (outline_color p =? "none")
   then lookup_color (outline_color p) else ret None)
  = ([], inr (outline_rgb_of p)).
Proof.
  unfold colors_known, lookup_color, font_rgb_of, outline_rgb_of.
  destruct (dict_get color_map (font_color p)) as [fc |]; [| discriminate].
  destruct (outline_enabled p && negb (outline_color p =? "none")).
  - destruct (dict_get color_map (outline_color p)) as [oc |]; [| discriminate].
    now split.
  - now split.
Qed.

(** [process] on a tensor that is not four-dimensional, or no tensor. *)
Lemma process_not_four_dimensional host images p :
  ~ four_dimensional images ->
  process host images p = ([], inl (ValueError rank_message)).
Proof.
  destruct images as [| t]; simpl; [reflexivity |].
  intros H. apply Nat.eqb_neq in H. now rewrite H.
Qed.

(** [process] on a four-dimensional tensor, once the colours are known. *)
Lemma process_known_colors host t p :
  List.length (shape t) = 4%nat -> colors_known p = true ->
  process host (TorchTensor t) p =
    (font_path <- resolve_font host (font p) (font_size p) ;;
     run_frames host p font_path (font_rgb_of p) (outline_rgb_of p) t).
Proof.
  intros H4 Hk. destruct (colors_known_rgb p Hk) as [Hf Ho].
  unfold process. rewrite H4. simpl negb. cbv iota.
  rewrite Hf, bind_ret_l, Ho, bind_ret_l. reflexivity.
Qed.

(** ... and the font is resolved. *)
Lemma process_resolved host t p w f :
  List.length (shape t) = 4%nat -> colors_known p = true ->
  resolve_font host (font p) (font_size p) = (w, inr f) ->
  process host (TorchTensor t) p =
    ((w ++ fst (run_frames host p f (font_rgb_of p) (outline_rgb_of p) t))%list,
     snd (run_frames host p f (font_rgb_of p) (outline_rgb_of p) t)).
Proof.
  intros H4 Hk Hf. rewrite (process_known_colors host t p H4 Hk), Hf.
  simpl. now destruct (run_frames _ _ _ _ _ _).
Qed.

(** ... or the font loader raises. *)
Lemma process_font_raises host t p o e :
  List.length (shape t) = 4%nat -> colors_known p = true ->
  resolve_font host (font p) (font_size p) = (o, inl e) ->
  process host (TorchTensor t) p = (o, inl e).
Proof.
  intros H4 Hk Hf. now rewrite (process_known_colors host t p H4 Hk), Hf.
Qed.

(** The whole of [process] on a non-empty batch of RGB frames, in closed
    form. *)
Lemma process_exact host p t b h w warnings f :
  shape t = [b; h; w; 3%nat] -> (0 < b)%nat -> colors_known p = true ->
  resolve_font host (font p) (font_size p) = (warnings, inr f) ->
  process host (TorchTensor t) p =
    ((warnings ++
      List.concat (map (frame_events host p f (font_rgb_of p)
                                     (outline_rgb_of p) t) (seq 0 b)))%list,
     inr {| shape := [b; h; w; 3%nat];
            data := List.concat
                      (map (fun i =>
                              data (frame_out host p f (font_rgb_of p)
                                              (outline_rgb_of p) t i))
                           (seq 0 b)) |}).
Proof.
  intros Hs Hb Hk Hf.
  rewrite (process_resolved host t p warnings f) by (assumption || now rewrite Hs).
  now rewrite (run_frames_exact host p _ _ _ t b h w Hs Hb).
Qed.

Lemma process_empty host p t warnings f :
  List.length (shape t) = 4%nat -> nth 0 (shape t) 0%nat = 0%nat ->
  colors_known p = true ->
  resolve_font host (font p) (font_size p) = (warnings, inr f) ->
  process host (TorchTensor t) p =
    (warnings, inl (RuntimeError "stack expects a non-empty TensorList")).
Proof.
  intros H4 H0 Hk Hf.
  rewrite (process_resolved host t p warnings f H4 Hk Hf).
  rewrite run_frames_empty by exact H0. simpl. now rewrite app_nil_r.
Qed.

Lemma process_wrong_channels host p t b h w c warnings f :
  shape t = [S b; h; w; c] -> c <> 3%nat -> colors_known p = true ->
  resolve_font host (font p) (font_size p) = (warnings, inr f) ->
  process host (TorchTensor t) p =
    (warnings, inl (ValueError channels_message)).
Proof.
  intros Hs Hc Hk Hf.
  rewrite (process_resolved host t p warnings f) by (assumption || now rewrite Hs).
  rewrite (run_frames_wrong_channels host p _ _ _ t b h w c Hs Hc).
  simpl. now rewrite app_nil_r.
Qed.

Lemma length_four {A} (l : list A) :
  List.length l = 4%nat -> exists a b c d, l = [a; b; c; d].
Proof.
  destruct l as [| a [| b [| c [| d [| e l]]]]]; simpl; try discriminate.
  intros _; now exists a, b, c, d.
Qed.

(** A call that returns has found its colours and its font. *)
Lemma process_returns_inv host t p tr out :
  process host (TorchTensor t) p = (tr, inr out) ->
  List.length (shape t) = 4%nat /\ colors_known p = true /\
  exists warnings f,
    resolve_font host (font p) (font_size p) = (warnings, inr f).
Proof.
  unfold process.
  destruct (Nat.eqb_spec (List.length (shape t)) 4) as [H4 | H4];
    simpl negb; cbv iota; [| discriminate].
  intros H. split; [exact H4 |].
  apply bind_returns in H as (o1 & fc & o2 & Hfc & H & _).
  apply bind_returns in H as (o3 & oc & o4 & Hoc & H & _).
  apply bind_returns in H as (o5 & f & o6 & Hf & H & _).
  split; [| eauto].
  unfold colors_known, lookup_color in *.
  destruct (dict_get color_map (font_color p)); [| discriminate].
  destruct (outline_enabled p && negb (outline_color p =? "none"));
    [| reflexivity].
  now destruct (dict_get color_map (outline_color p)).
Qed.

Lemma decimal_three_digits n :
  (n < 1000)%nat -> (String.length (decimal n) <= 3)%nat.
Proof.
  assert (H : forallb (fun k => String.length (decimal k) <=? 3)%nat
                      (seq 0 1000) = true) by (vm_compute; reflexivity).
  intros Hn. rewrite forallb_forall in H.
  apply Nat.leb_le, H, in_seq; lia.
Qed.

(** * The claims *)

(** A stacked batch of frames of the right size is well formed. *)
Lemma stacked_well_formed host p f fc oc t b h w :
  rgb_batch t b h w ->
  well_formed
    {| shape := [b; h; w; 3%nat];
       data := List.concat
                 (map (fun i => data (frame_out host p f fc oc t i))
                      (seq 0 b)) |} = true.
Proof.
  intros [Hs Hw].
  set (n := numel [h; w; 3%nat]).
  assert (Hlen : List.length (data t) = (b * n)%nat).
  { unfold well_formed in Hw. apply Nat.eqb_eq in Hw.
    rewrite Hw, Hs. reflexivity. }
  unfold well_formed; cbn [data shape]. apply Nat.eqb_eq.
  rewrite (concat_uniform_length _ n).
  - rewrite length_map, length_seq. reflexivity.
  - apply Forall_map, Forall_forall. intros k Hk. apply in_seq in Hk.
    rewrite frame_out_length. unfold tensor_get; simpl data.
    rewrite Hs; simpl tl. apply slice_length with (b := b); [exact Hlen | lia].
Qed.

(** ** C1: batch length and frame shapes *)

(** C1, as stated, at the empty batch: the batch is a well-formed
    four-dimensional tensor with three channels and the parameters are the
    declared defaults, yet [process] returns no output batch at all, so
    there is no output whose length equals the length of the input. *)
Lemma process_empty_batch_returns_nothing :
  rgb_batch Samples.empty_batch 0 2 2 /\
  input_types_ok Samples.defaults = true /\
  ~ exists out,
      returned (process Samples.bare_host (TorchTensor Samples.empty_batch)
                        Samples.defaults) = Some out /\
      len out = len Samples.empty_batch.
Proof.
  split; [split; reflexivity |]. split; [reflexivity |].
  intros (out & H & _). vm_compute in H. discriminate.
Qed.

(** C1 (amended): for every non-empty batch of RGB frames (a well-formed
    four-dimensional tensor with three channels and at least one frame),
    parameters whose colour names are keys of the colour table and a font
    whose resolution does not raise, [process] returns an output batch of
    the same length as the input, and every output frame has the (height,
    width, channel) shape of the input frame at the same index. *)
Theorem process_preserves_batch_shape host p t b h w warnings f :
  rgb_batch t b h w -> (0 < b)%nat -> colors_known p = true ->
  resolve_font host (font p) (font_size p) = (warnings, inr f) ->
  exists tr out,
    process host (TorchTensor t) p = (tr, inr out) /\
    len out = len t /\
    well_formed out = true /\
    forall i, (i < len t)%nat ->
      shape (tensor_get out i) = shape (tensor_get t i) /\
      shape (tensor_get out i) = [h; w; 3%nat] /\
      well_formed (tensor_get out i) = true.
Proof.
  intros Hb Hpos Hk Hf. pose proof Hb as [Hs Hw].
  eexists _, _. split.
  { exact (process_exact host p t b h w warnings f Hs Hpos Hk Hf). }
  pose proof (stacked_well_formed host p f (font_rgb_of p) (outline_rgb_of p)
                                  t b h w Hb) as Hwf.
  remember {| shape := [b; h; w; 3%nat]; data := _ |} as out eqn:Eo.
  assert (Hout : shape out = [b; h; w; 3%nat]) by (subst out; reflexivity).
  clear Eo. unfold len. rewrite Hout, Hs. simpl nth.
  repeat split; try assumption.
  - now rewrite (tensor_get_shape out b [h; w; 3%nat] i Hout),
               (tensor_get_shape t b [h; w; 3%nat] i Hs).
  - exact (tensor_get_shape out b [h; w; 3%nat] i Hout).
  - exact (tensor_get_well_formed out b [h; w; 3%nat] i Hout Hwf H).
Qed.

Lemma process_preserves_batch_shape_two_frames :
  exists tr out,
    process Samples.bare_host (TorchTensor Samples.two_frames) Samples.defaults
      = (tr, inr out) /\
    len out = 2%nat /\
    shape (tensor_get out 1) = [1; 2; 3]%nat.
Proof.
  destruct (process_preserves_batch_shape
              Samples.bare_host Samples.defaults Samples.two_frames 2 1 2
              [Printed "Font arial.ttf not found, using default font"]
              DefaultFont)
    as (tr & out & Hp & Hl & _ & Hall).
  - split; reflexivity.
  - lia.
  - reflexivity.
  - reflexivity.
  - exists tr, out. split; [exact Hp |]. split; [exact Hl |].
    apply (Hall 1%nat). unfold len; simpl; lia.
Defined.

(** ** C3: the caption *)

(** The frames of a batch of RGB frames, in closed form: the call
    returns, it makes one [draw.text] call per frame, in order, and frame
    [i] of the output is the image of frame [i] after its call. *)
Lemma process_draws host p t b h w warnings f i :
  rgb_batch t b h w -> colors_known p = true ->
  resolve_font host (font p) (font_size p) = (warnings, inr f) ->
  (i < b)%nat ->
  exists tr out,
    process host (TorchTensor t) p = (tr, inr out) /\
    List.length (draws tr) = b /\
    nth_error (draws tr) i =
      Some (frame_image host t i,
            drawn_call host p f (font_rgb_of p) (outline_rgb_of p)
                       (frame_image host t i) i) /\
    tensor_get out i = frame_out host p f (font_rgb_of p) (outline_rgb_of p) t i.
Proof.
  intros Hb Hk Hf Hi. pose proof Hb as [Hs Hw].
  eexists _, _. split.
  { apply (process_exact host p t b h w warnings f Hs); [lia | exact Hk | exact Hf]. }
  destruct (resolve_font_trace host _ _ _ _ Hf) as [Hd _].
  rewrite draws_app, Hd, loop_draws. cbn [app].
  split; [now rewrite length_map, length_seq |].
  split; [exact (nth_error_map_seq _ b i Hi) |].
  exact (stacked_frame host p f _ _ t b h w i Hb Hi).
Qed.

(** C3: on a batch of RGB frames, with colour names that are keys of the
    colour table and a font whose resolution does not raise, [process]
    makes exactly one [draw.text] call per frame, in the order of the
    frames; frame [i] of the output is frame [i] of the input after the
    call number [i], and the caption of that call is
    [prefix + " " + zero_padded(i+1)] when the prefix is not blank and the
    zero-padded number alone when the prefix is empty or whitespace only. *)
Theorem caption_of_frame host p t b h w warnings f i :
  rgb_batch t b h w -> colors_known p = true ->
  resolve_font host (font p) (font_size p) = (warnings, inr f) ->
  (i < b)%nat ->
  exists tr out call,
    process host (TorchTensor t) p = (tr, inr out) /\
    List.length (draws tr) = b /\
    nth_error (draws tr) i = Some (frame_image host t i, call) /\
    tensor_get out i =
      from_numpy_div255
        (np_array (draw_text host (frame_image host t i) call)) /\
    caption call =
      if blank (prefix_text p)
      then format_0d (num_padding p) (i + 1)
      else prefix_text p ++ " " ++ format_0d (num_padding p) (i + 1).
Proof.
  intros Hb Hk Hf Hi.
  destruct (process_draws host p t b h w warnings f i Hb Hk Hf Hi)
    as (tr & out & Hp & Hlen & Hnth & Hout).
  exists tr, out, (drawn_call host p f (font_rgb_of p) (outline_rgb_of p)
                              (frame_image host t i) i).
  repeat split; try assumption.
  destruct (drawn_call_fields host p f (font_rgb_of p) (outline_rgb_of p)
                              (frame_image host t i) i) as (_ & Hcap & _).
  now rewrite Hcap, text_blank_cases.
Qed.

Lemma singleton_of_nth_error {A} (l : list A) a :
  List.length l = 1%nat -> nth_error l 0 = Some a -> l = [a].
Proof.
  destruct l as [| x [| y l]]; simpl; try discriminate.
  intros _ H; now injection H as ->.
Qed.

Lemma caption_of_first_frame :
  exists tr out,
    process Samples.bare_host (TorchTensor Samples.one_frame) Samples.defaults
      = (tr, inr out) /\
    map (fun d => caption (snd d)) (draws tr) = ["Frame 001"].
Proof.
  destruct (caption_of_frame
              Samples.bare_host Samples.defaults Samples.one_frame 1 2 2
              [Printed "Font arial.ttf not found, using default font"]
              DefaultFont 0)
    as (tr & out & call & Hp & Hlen & Hnth & _ & Hcap).
  - split; reflexivity.
  - reflexivity.
  - reflexivity.
  - lia.
  - exists tr, out. split; [exact Hp |].
    rewrite (singleton_of_nth_error _ _ Hlen Hnth). simpl.
    now rewrite Hcap.
Defined.

(** ** C4: the draw origin *)

(** C4: the [draw.text] call of frame [i] has the origin [(x, y)] where
    [x] is the horizontal padding for the anchor "left", half of the free
    width (floor division) for "center" and the free width minus the
    padding for "right", so that [x + text_width + h_padding =
    image_width]; [y] is computed likewise from the vertical anchor "top",
    "center", "bottom".  The text is measured with the caption of the
    frame in the resolved font.  The equations hold for all integers:
    nothing is clamped. *)
Theorem draw_origin_of_frame host p t b h w warnings f i :
  rgb_batch t b h w -> colors_known p = true ->
  resolve_font host (font p) (font_size p) = (warnings, inr f) ->
  (i < b)%nat ->
  exists tr out call,
    process host (TorchTensor t) p = (tr, inr out) /\
    List.length (draws tr) = b /\
    nth_error (draws tr) i = Some (frame_image host t i, call) /\
    tensor_get out i =
      from_numpy_div255
        (np_array (draw_text host (frame_image host t i) call)) /\
    caption call = text (prefix_text p) (num_padding p) i /\
    call_font call = f /\
    let image_width := Z.of_nat w in
    let image_height := Z.of_nat h in
    let text_width := fst (text_extent host (caption call) (call_font call)) in
    let text_height := snd (text_extent host (caption call) (call_font call)) in
    let x := fst (xy call) in
    let y := snd (xy call) in
    (h_position p = "left" -> x = h_padding p) /\
    (h_position p = "center" -> x = (image_width - text_width) / 2) /\
    (h_position p = "right" ->
       x = image_width - text_width - h_padding p /\
       x + text_width + h_padding p = image_width) /\
    (v_position p = "top" -> y = v_padding p) /\
    (v_position p = "center" -> y = (image_height - text_height) / 2) /\
    (v_position p = "bottom" ->
       y = image_height - text_height - v_padding p /\
       y + text_height + v_padding p = image_height).
Proof.
  intros Hb Hk Hf Hi.
  destruct (process_draws host p t b h w warnings f i Hb Hk Hf Hi)
    as (tr & out & Hp & Hlen & Hnth & Hout).
  exists tr, out, (drawn_call host p f (font_rgb_of p) (outline_rgb_of p)
                              (frame_image host t i) i).
  destruct (drawn_call_fields host p f (font_rgb_of p) (outline_rgb_of p)
                              (frame_image host t i) i)
    as (Hxy & Hcap & Hfont & _).
  split; [exact Hp |]. split; [exact Hlen |]. split; [exact Hnth |].
  split; [exact Hout |]. split; [exact Hcap |]. split; [exact Hfont |].
  rewrite Hxy, Hcap, Hfont, text_call_xy.
  destruct Hb as [Hs _]. rewrite (frame_image_size host t b h w 3 i Hs).
  set (tw := fst (text_extent host _ f)).
  set (th := snd (text_extent host _ f)).
  cbv zeta. cbn [fst snd]. unfold x_origin, y_origin.
  repeat match goal with |- _ /\ _ => split end;
    intros ->; simpl String.eqb; cbv iota; lia.
Qed.

Lemma draw_origin_off_canvas :
  exists tr out,
    process Samples.bare_host (TorchTensor Samples.one_frame) Samples.far_corner
      = (tr, inr out) /\
    map (fun d => xy (snd d)) (draws tr) = [(-1052, -1007)].
Proof.
  destruct (draw_origin_of_frame
              Samples.bare_host Samples.far_corner Samples.one_frame 1 2 2
              [Printed "Font arial.ttf not found, using default font"]
              DefaultFont 0)
    as (tr & out & call & Hp & Hlen & Hnth & _ & Hcap & Hfont & H).
  - split; reflexivity.
  - reflexivity.
  - reflexivity.
  - lia.
  - exists tr, out. split; [exact Hp |].
    rewrite (singleton_of_nth_error _ _ Hlen Hnth). simpl.
    cbv zeta in H.
    destruct H as (_ & _ & Hx & _ & _ & Hy).
    destruct (Hx eq_refl) as [Hx' _]. destruct (Hy eq_refl) as [Hy' _].
    rewrite Hfont, Hcap in Hx', Hy'.
    destruct (xy call) as [x y]. simpl in Hx', Hy'. now subst.
Defined.

(** ** C5: the frame number *)

(** C5: the number on frame [i] is [i + 1] written in decimal and padded
    on the left with zeros to [num_padding] characters; with
    [num_padding = 3] the numbers below 1000 have exactly three digits; a
    number with more digits than [num_padding] is rendered in full,
    without padding and without truncation. *)
Theorem frame_number_zero_padded (num_padding i : nat) :
  parse_decimal (frame_number num_padding i) = Some (i + 1)%nat /\
  (exists k, frame_number num_padding i = zeros k ++ decimal (i + 1)) /\
  String.length (frame_number num_padding i) =
    Nat.max num_padding (String.length (decimal (i + 1))) /\
  ((String.length (decimal (i + 1)) <= num_padding)%nat ->
     String.length (frame_number num_padding i) = num_padding) /\
  ((num_padding < String.length (decimal (i + 1)))%nat ->
     frame_number num_padding i = decimal (i + 1)) /\
  ((i + 1 < 1000)%nat -> String.length (frame_number 3 i) = 3%nat).
Proof.
  unfold frame_number.
  split; [apply parse_decimal_format_0d |].
  split; [eexists; reflexivity |].
  split; [apply format_0d_length |].
  split; [| split].
  - intros H. rewrite format_0d_length. lia.
  - intros H. apply format_0d_wide. lia.
  - intros H. rewrite format_0d_length.
    pose proof (decimal_three_digits (i + 1) H). lia.
Qed.

Lemma frame_number_zero_padded_samples :
  map (frame_number 3) [0; 1; 9; 99; 998]%nat =
    ["001"; "002"; "010"; "100"; "999"] /\
  String.length (frame_number 3 41) = 3%nat /\
  frame_number 3 999 = "1000" /\
  frame_number 1 9 = "10".
Proof.
  split; [reflexivity |].
  destruct (frame_number_zero_padded 3 41) as (_ & _ & _ & _ & _ & H3).
  split; [apply H3; lia |].
  destruct (frame_number_zero_padded 3 999) as (_ & _ & _ & _ & Hw & _).
  split; [rewrite Hw; [reflexivity | vm_compute; lia] |].
  destruct (frame_number_zero_padded 1 9) as (_ & _ & _ & _ & Hw' & _).
  rewrite Hw'; [reflexivity | vm_compute; lia].
Defined.

(** ** C2: invalid input *)

(** C2, as stated, at two inputs.  A well-formed batch with one RGB frame
    and a font size of 0: the input is a four-dimensional tensor with
    three channels, and yet [process] raises [ValueError], the one of the
    font loader.  A batch with one RGBA frame and a font colour that the
    colour table does not have: a frame does not have three channels, and
    yet the exception is not [ValueError] but [KeyError]. *)
Lemma process_value_error_inexact :
  (four_dimensional (TorchTensor Samples.one_frame) /\
   ~ some_frame_not_rgb (TorchTensor Samples.one_frame) /\
   raises_ValueError
     (process Samples.bare_host (TorchTensor Samples.one_frame)
              Samples.zero_size)) /\
  (some_frame_not_rgb (TorchTensor Samples.rgba_frame) /\
   ~ raises_ValueError
       (process Samples.bare_host (TorchTensor Samples.rgba_frame)
                Samples.purple)).
Proof.
  split; [split; [reflexivity | split] | split].
  - intros (i & Hi & Hc). unfold len in Hi; simpl in Hi.
    assert (i = 0%nat) by lia; subst i. apply Hc; reflexivity.
  - eexists. vm_compute. reflexivity.
  - exists 0%nat. split; [unfold len; simpl; lia | discriminate].
  - intros [msg H]. vm_compute in H. discriminate.
Qed.

(** C2 (amended): [process] raises [ValueError] whenever [images] is not a
    four-dimensional tensor.  For parameters whose colour names are keys
    of the colour table and a font whose resolution does not raise, it
    raises [ValueError] exactly when [images] is not a four-dimensional
    tensor or some frame does not have three channels.  A batch with four
    channels never yields an output, and under the same conditions raises
    [ValueError] as soon as it has a frame.  An exception is the whole
    outcome of the call: no output, partial or not, comes with it. *)
Theorem process_invalid_input host images p :
  (~ four_dimensional images -> raises_ValueError (process host images p)) /\
  (forall warnings f,
     colors_known p = true ->
     resolve_font host (font p) (font_size p) = (warnings, inr f) ->
     (raises_ValueError (process host images p) <->
      ~ four_dimensional images \/ some_frame_not_rgb images)) /\
  (raises_ValueError (process host images p) ->
   returned (process host images p) = None) /\
  (forall t b h w,
     images = TorchTensor t -> shape t = [b; h; w; 4%nat] ->
     returned (process host images p) = None /\
     (forall warnings f,
        colors_known p = true ->
        resolve_font host (font p) (font_size p) = (warnings, inr f) ->
        (0 < b)%nat ->
        snd (process host images p) = inl (ValueError channels_message))).
Proof.
  split; [| split; [| split]].
  - intros H. rewrite (process_not_four_dimensional host images p H).
    eexists; reflexivity.
  - intros warnings f Hk Hf. split.
    + intros [msg Hr].
      destruct images as [| t]; [left; tauto |].
      destruct (Nat.eq_dec (List.length (shape t)) 4) as [H4 | H4];
        [right | left; exact H4].
      destruct (length_four _ H4) as (b & h & w & c & Hs).
      destruct b as [| b].
      { rewrite (process_empty host p t warnings f H4) in Hr;
          [discriminate | now rewrite Hs | exact Hk | exact Hf]. }
      destruct (Nat.eq_dec c 3) as [Hc | Hc].
      * subst c.
        rewrite (process_resolved host t p warnings f H4 Hk Hf) in Hr.
        rewrite (run_frames_exact host p f _ _ t (S b) h w Hs) in Hr by lia.
        discriminate.
      * exists 0%nat. split; [unfold len; rewrite Hs; simpl; lia |].
        now rewrite (tensor_get_shape t (S b) [h; w; c] 0 Hs).
    + intros [H | H].
      * rewrite (process_not_four_dimensional host images p H).
        eexists; reflexivity.
      * destruct images as [| t]; [destruct H |].
        destruct H as (i & Hi & Hc).
        destruct (Nat.eq_dec (List.length (shape t)) 4) as [H4 | H4].
        -- destruct (length_four _ H4) as (b & h & w & c & Hs).
           rewrite (tensor_get_shape t b [h; w; c] i Hs) in Hc. simpl in Hc.
           unfold len in Hi. rewrite Hs in Hi. simpl in Hi.
           destruct b as [| b]; [lia |].
           rewrite (process_wrong_channels host p t b h w c warnings f Hs Hc Hk Hf).
           eexists; reflexivity.
        -- rewrite (process_not_four_dimensional host (TorchTensor t) p H4).
           eexists; reflexivity.
  - intros [msg Hr]. unfold returned. now rewrite Hr.
  - intros t b h w -> Hs. split.
    + unfold process.
      replace (List.length (shape t) =? 4)%nat with true
        by (rewrite Hs; reflexivity).
      simpl negb. cbv iota.
      do 3 bind_not_returned.
      destruct b as [| b].
      * rewrite run_frames_empty; [reflexivity | now rewrite Hs].
      * rewrite (run_frames_wrong_channels host p _ _ _ t b h w 4 Hs);
          [reflexivity | discriminate].
    + intros warnings f Hk Hf Hb.
      destruct b as [| b]; [lia |].
      rewrite (process_wrong_channels host p t b h w 4 warnings f Hs);
        [reflexivity | discriminate | exact Hk | exact Hf].
Qed.

Lemma process_invalid_input_samples :
  raises_ValueError
    (process Samples.bare_host NotATensor Samples.defaults) /\
  snd (process Samples.bare_host (TorchTensor Samples.rgba_frame)
               Samples.defaults) = inl (ValueError channels_message) /\
  returned
    (process Samples.bare_host (TorchTensor Samples.empty_rgba) Samples.defaults)
    = None /\
  ~ raises_ValueError
      (process Samples.bare_host (TorchTensor Samples.one_frame) Samples.defaults).
Proof.
  split; [| split; [| split]].
  - destruct (process_invalid_input
                Samples.bare_host NotATensor Samples.defaults) as (H & _).
    apply H. simpl; tauto.
  - destruct (process_invalid_input
                Samples.bare_host (TorchTensor Samples.rgba_frame) Samples.defaults)
      as (_ & _ & _ & H).
    destruct (H Samples.rgba_frame 1%nat 1%nat 2%nat eq_refl eq_refl) as [_ Hr].
    apply (Hr [Printed "Font arial.ttf not found, using default font"]
              DefaultFont); [reflexivity | reflexivity | lia].
  - destruct (process_invalid_input
                Samples.bare_host (TorchTensor Samples.empty_rgba) Samples.defaults)
      as (_ & _ & _ & H).
    apply (H Samples.empty_rgba 0%nat 1%nat 2%nat eq_refl eq_refl).
  - destruct (process_invalid_input
                Samples.bare_host (TorchTensor Samples.one_frame) Samples.defaults)
      as (_ & H & _).
    intros Hr.
    apply (H [Printed "Font arial.ttf not found, using default font"]
             DefaultFont eq_refl eq_refl) in Hr.
    destruct Hr as [Hr | (i & Hi & Hc)].
    + apply Hr; reflexivity.
    + unfold len in Hi; simpl in Hi.
      assert (i = 0%nat) by lia; subst i. apply Hc; reflexivity.
Defined.

(** ** C8: the empty batch *)

(** C8: on a batch without frames (batch dimension 0, three channels)
    [process] never returns an output batch, whatever the parameters and
    the host; when the colour names are keys of the colour table and the
    font resolution does not raise, the exception is the one of
    [torch.stack] on the empty list of processed frames. *)
Theorem process_empty_batch host p h w d :
  let images := TorchTensor {| shape := [0; h; w; 3]%nat; data := d |} in
  returned (process host images p) = None /\
  (forall warnings f,
     colors_known p = true ->
     resolve_font host (font p) (font_size p) = (warnings, inr f) ->
     process host images p =
       (warnings, inl (RuntimeError "stack expects a non-empty TensorList"))).
Proof.
  cbv zeta. set (t := {| shape := [0; h; w; 3]%nat; data := d |}). split.
  - unfold process. simpl negb. cbv iota.
    do 3 bind_not_returned.
    now rewrite run_frames_empty.
  - intros warnings f Hk Hf.
    now apply (process_empty host p t warnings f).
Qed.

Lemma process_empty_batch_defaults :
  process Samples.bare_host (TorchTensor Samples.empty_batch) Samples.defaults =
    ([Printed "Font arial.ttf not found, using default font"],
     inl (RuntimeError "stack expects a non-empty TensorList")).
Proof.
  destruct (process_empty_batch Samples.bare_host Samples.defaults 2 2 [])
    as [_ H].
  apply (H [Printed "Font arial.ttf not found, using default font"] DefaultFont);
    reflexivity.
Defined.

(** ** C9: the output samples *)

Lemma level_check_all k : (0 <= k <= 255)%Z -> level_check k = true.
Proof.
  assert (H : forallb (fun n => level_check (Z.of_nat n)) (seq 0 256) = true)
    by (vm_compute; reflexivity).
  intros Hk. rewrite forallb_forall in H.
  rewrite <- (Z2Nat.id k) by lia. apply H, in_seq. lia.
Qed.

Lemma multiple_of_255th v :
  eight_bit_level v -> (Qnum (v * 255) mod Zpos (Qden (v * 255)) = 0)%Z.
Proof.
  intros (k & _ & Hv).
  assert (H : (v * 255 == inject_Z k)%Q).
  { rewrite Hv. unfold Qeq, Qmult, inject_Z; simpl. lia. }
  unfold Qeq in H. cbn [inject_Z Qnum Qden] in H.
  rewrite Z.mul_1_r in H. rewrite H. apply Z_mod_mult.
Qed.

Lemma of_uint8_level b : float32_level (of_uint8 b).
Proof.
  pose proof (Byte.to_N_bounded b) as Hb.
  set (k := Z.of_N (Byte.to_N b)).
  assert (Hk : (0 <= k <= 255)%Z) by (unfold k; lia).
  pose proof (level_check_all k Hk) as Hc.
  unfold level_check in Hc. cbv zeta in Hc.
  apply andb_prop in Hc as [Hc H4]. apply andb_prop in Hc as [Hc H3].
  apply andb_prop in Hc as [H1 H2].
  apply Qle_bool_iff in H1, H2, H3. apply Bool.eqb_prop in H4.
  exists k. unfold of_uint8. fold k.
  split; [exact Hk |].
  repeat match goal with |- _ /\ _ => split end; try assumption;
    try reflexivity.
  split.
  - intros He. apply multiple_of_255th in He.
    apply Z.eqb_eq in He. rewrite He in H4. symmetry in H4.
    apply orb_prop in H4 as [H4 | H4]; apply Z.eqb_eq in H4; auto.
  - intros [-> | ->].
    + exists 0%Z. split; [lia | vm_compute; reflexivity].
    + exists 255%Z. split; [lia | vm_compute; reflexivity].
Qed.

Lemma process_frame_levels host p f fc oc t i o y :
  process_frame host p f fc oc t i = (o, inr y) ->
  Forall float32_level (data y).
Proof.
  destruct (Nat.eq_dec (nth 2 (shape (tensor_get t i)) 0%nat) 3) as [H3 | H3].
  - rewrite (process_frame_exact host p f fc oc t i H3).
    intros H; injection H as _ <-. unfold frame_out.
    change (data (from_numpy_div255 (np_array ?img)))
      with (map of_uint8 (im img)).
    apply Forall_map, Forall_forall. intros b _. apply of_uint8_level.
  - rewrite (process_frame_rejects host p f fc oc t i H3). discriminate.
Qed.

Lemma stack_returns ts o out :
  stack ts = (o, inr out) -> data out = List.concat (map data ts).
Proof.
  unfold stack. destruct ts as [| t0 ts]; [discriminate |].
  destruct (forallb _ _); [| discriminate].
  intros H; injection H as _ <-; reflexivity.
Qed.

(** C9, as stated, at one frame of one pixel whose green sample is
    63/128: [process] returns a batch whose green sample is
    16448251/33554432, the single-precision quotient of 125 by 255, and
    that number is not [k/255] for any integer [k]. *)
Lemma output_sample_not_a_multiple :
  exists tr out,
    process Samples.bare_host (TorchTensor Samples.exact_frame)
            Samples.defaults = (tr, inr out) /\
    nth 1 (data out) 0%Q = 16448251 # 33554432 /\
    ~ eight_bit_level (16448251 # 33554432) /\
    ~ Forall eight_bit_level (data out).
Proof.
  eexists _, _. split; [vm_compute; reflexivity |].
  assert (Hno : ~ eight_bit_level (16448251 # 33554432)).
  { intros (k & _ & Hk). unfold Qeq in Hk; simpl in Hk. lia. }
  split; [reflexivity |]. split; [exact Hno |].
  intros H. inversion H as [| ? ? _ H1]; subst.
  inversion H1 as [| ? ? H2 _]; subst. exact (Hno H2).
Qed.

(** C9 (amended): whenever [process] returns a batch, every entry of the
    batch is the single-precision quotient [float32(k) / 255.0] of an
    integer [k] between 0 and 255, whatever the entries of the input are:
    one of 256 values, between 0 and 1 and within [2^-25] of [k/255]; it
    is an exact multiple of [1/255] only for [k = 0] and [k = 255]. *)
Theorem output_samples_are_levels host images p tr out :
  process host images p = (tr, inr out) ->
  Forall float32_level (data out).
Proof.
  destruct images as [| t]; simpl; [discriminate |].
  destruct (negb _); [discriminate |].
  intros H.
  do 3 bind_returned H.
  unfold run_frames in H.
  apply bind_returns in H as (? & ys & ? & Hm & H & _).
  rewrite (stack_returns _ _ _ H).
  apply Forall_concat, Forall_map.
  apply mapM_returns in Hm.
  apply (Forall2_right _ _ _ _ Hm).
  intros i y [o Hy]. exact (process_frame_levels _ _ _ _ _ _ _ _ _ Hy).
Qed.

Lemma output_samples_of_one_frame :
  exists tr out,
    process Samples.bare_host (TorchTensor Samples.one_frame) Samples.defaults
      = (tr, inr out) /\
    Forall float32_level (data out) /\
    nth 2 (data out) 0%Q = 16711423 # 33554432.
Proof.
  destruct (process Samples.bare_host (TorchTensor Samples.one_frame)
                    Samples.defaults) as [tr [e | out]] eqn:Hp;
    [vm_compute in Hp; discriminate |].
  exists tr, out. split; [reflexivity |]. split.
  - exact (output_samples_are_levels _ _ _ _ _ Hp).
  - vm_compute in Hp. injection Hp as _ <-. reflexivity.
Defined.

(** ** C10: the outline parameters of a disabled outline *)

(** C10: with [outline_enabled] false, two calls that differ only in
    [outline_color] and [stroke_width] have the same outcome: the same
    output batch (or exception) and the same printed lines. *)
Theorem outline_ignored_when_disabled host images p q :
  outline_enabled p = false -> same_but_outline p q ->
  process host images p = process host images q.
Proof.
  intros Hoff (H1 & H2 & H3 & H4 & H5 & H6 & H7 & H8 & H9 & H10).
  destruct p, q; simpl in *; subst.
  destruct images as [| t]; reflexivity.
Qed.

Lemma outline_ignored_when_disabled_defaults :
  process Samples.bare_host (TorchTensor Samples.one_frame) Samples.defaults =
  process Samples.bare_host (TorchTensor Samples.one_frame) Samples.other_outline.
Proof.
  apply outline_ignored_when_disabled.
  - reflexivity.
  - repeat split; reflexivity.
Defined.

(** ** C7: determinism *)

Lemma run_frames_same_libraries host1 host2 p f fc oc t :
  same_libraries host1 host2 ->
  run_frames host1 p f fc oc t = run_frames host2 p f fc oc t.
Proof.
  unfold same_libraries.
  destruct host1, host2; cbn [textbbox textsize stroke_supported text_ink
                              astype_uint8_undefined].
  intros (-> & -> & -> & -> & ->). reflexivity.
Qed.

(** C7: the outcome of [process] (the output batch or the exception, the
    printed lines and the [draw.text] calls) depends on the state of the
    host only through the font that is resolved: two calls with the same
    images and the same parameters have the same outcome whenever the font
    resolution is the same and the image library is the same, whatever
    else differs between the hosts of the two calls (platform,
    environment, files, what was printed before).  In particular two calls
    on the same host have the same outcome. *)
Theorem process_deterministic host1 host2 images p :
  same_libraries host1 host2 ->
  resolve_font host1 (font p) (font_size p) =
    resolve_font host2 (font p) (font_size p) ->
  process host1 images p = process host2 images p.
Proof.
  intros Hlib Hfont.
  destruct images as [| t]; [reflexivity |].
  unfold process.
  destruct (negb (List.length (shape t) =? 4)%nat); [reflexivity |].
  apply bind_congr; intros fc. apply bind_congr; intros oc.
  rewrite Hfont. apply bind_congr; intros f.
  apply run_frames_same_libraries; exact Hlib.
Qed.

Lemma process_deterministic_two_hosts :
  font_dirs Samples.bare_host <> font_dirs Samples.windows_host /\
  process Samples.bare_host (TorchTensor Samples.one_frame) Samples.defaults =
  process Samples.windows_host (TorchTensor Samples.one_frame) Samples.defaults.
Proof.
  split; [discriminate |].
  apply process_deterministic.
  - repeat split.
  - reflexivity.
Defined.

(** ** C6: fonts *)

(** C6, as stated, at two inputs.  One RGB frame and a font name with a
    NUL character: the font loader raises [ValueError], which [process]
    does not handle, and no output is produced.  The empty batch and a
    font that does not exist: no output is produced either. *)
Lemma process_font_error :
  (rgb_batch Samples.one_frame 1 2 2 /\
   process Samples.bare_host (TorchTensor Samples.one_frame) Samples.nul_font
   = ([], inl (ValueError "embedded null byte"))) /\
  (rgb_batch Samples.empty_batch 0 2 2 /\
   input_types_ok Samples.missing_font = true /\
   returned (process Samples.bare_host (TorchTensor Samples.empty_batch)
                     Samples.missing_font) = None).
Proof. repeat split. Qed.

Lemma font_warning_not_outline_warning font :
  "Font " ++ font_map_get font ++ " not found, using default font"
  <> outline_warning.
Proof. discriminate. Qed.

Lemma loop_printed_members host p oc b line :
  In line (List.concat (repeat (frame_log host p oc) b)) ->
  line = outline_warning.
Proof.
  induction b as [| b IH]; simpl; [intros [] |].
  rewrite in_app_iff. intros [H | H]; [| exact (IH H)].
  unfold frame_log in H.
  destruct (requested_stroke p oc); [| destruct H].
  destruct (stroke_supported host); [destruct H |].
  destruct H as [<- | []]. reflexivity.
Qed.

(** C6 (amended): for every non-empty batch of RGB frames, every font name
    and parameters whose colour names are keys of the colour table, the
    font is resolved over the ordered list of candidate paths (the font
    file itself, then the file in each font directory where it exists).
    When a candidate loads after the earlier ones failed with [OSError],
    the batch is produced, every frame is drawn with that font and no font
    warning is printed.  When all candidates fail with [OSError], the
    batch is produced, every frame is drawn with the built-in default font
    and the font warning is the first line printed.  When the loader
    raises [ValueError] on a candidate after the earlier ones failed with
    [OSError], that exception is the outcome of [process] and no batch is
    produced. *)
Theorem font_fallback host p t b h w :
  rgb_batch t b h w -> (0 < b)%nat -> colors_known p = true ->
  let warning :=
    "Font " ++ font_map_get (font p) ++ " not found, using default font" in
  match first_candidate host (font_size p) (font_candidates host (font p)) with
  | UseFont path =>
      exists tr out,
        process host (TorchTensor t) p = (tr, inr out) /\
        List.length (draws tr) = b /\
        Forall (fun d => call_font (snd d) = FreeTypeFont path (font_size p))
               (draws tr) /\
        ~ In warning (printed tr)
  | UseDefault =>
      exists tr out,
        process host (TorchTensor t) p = (tr, inr out) /\
        List.length (draws tr) = b /\
        Forall (fun d => call_font (snd d) = DefaultFont) (draws tr) /\
        hd_error (printed tr) = Some warning
  | Propagate msg =>
      process host (TorchTensor t) p = ([], inl (ValueError msg))
  end.
Proof.
  intros Hb Hpos Hk warning. pose proof Hb as [Hs Hw].
  pose proof (resolve_font_first host (font p) (font_size p)) as Hr.
  assert (Hfonts : forall f,
             Forall (fun d => call_font (snd d) = f)
               (map (fun i => (frame_image host t i,
                               drawn_call host p f (font_rgb_of p)
                                          (outline_rgb_of p)
                                          (frame_image host t i) i))
                    (seq 0 b))).
  { intros f. apply Forall_map, Forall_forall. intros i _. cbn [snd].
    apply drawn_call_fields. }
  destruct (first_candidate host (font_size p) (font_candidates host (font p)))
    as [path | | msg].
  - eexists _, _. split;
      [exact (process_exact host p t b h w _ _ Hs Hpos Hk Hr) |].
    cbn [app]. rewrite loop_draws, loop_printed.
    split; [now rewrite length_map, length_seq |].
    split; [apply Hfonts |].
    intros Hin. apply loop_printed_members in Hin.
    exact (font_warning_not_outline_warning (font p) Hin).
  - eexists _, _. split;
      [exact (process_exact host p t b h w _ _ Hs Hpos Hk Hr) |].
    cbn [app draws printed hd_error]. rewrite loop_draws.
    split; [now rewrite length_map, length_seq |].
    split; [apply Hfonts | reflexivity].
  - apply (process_font_raises host t p [] (ValueError msg));
      [now rewrite Hs | exact Hk | exact Hr].
Qed.

Lemma font_fallback_missing_font :
  exists tr out,
    process Samples.bare_host (TorchTensor Samples.one_frame) Samples.missing_font
      = (tr, inr out) /\
    map (fun d => call_font (snd d)) (draws tr) = [DefaultFont] /\
    hd_error (printed tr) =
      Some "Font NoSuchFont.ttf not found, using default font".
Proof.
  pose proof (font_fallback Samples.bare_host Samples.missing_font
                Samples.one_frame 1 2 2) as H.
  cbv zeta in H.
  change (first_candidate Samples.bare_host (font_size Samples.missing_font)
            (font_candidates Samples.bare_host (font Samples.missing_font)))
    with UseDefault in H.
  destruct H as (tr & out & Hp & Hlen & Hf & Hw).
  - split; reflexivity.
  - lia.
  - reflexivity.
  - exists tr, out. split; [exact Hp |]. split; [| exact Hw].
    destruct (draws tr) as [| d [| d' l]]; try discriminate.
    inversion Hf as [| ? ? Hd _]; subst. simpl. now rewrite Hd.
Defined.

(** The font file is found in the second directory of the list. *)
Example resolve_font_second_directory :
  font_candidates Samples.local_fonts_host "Arial" =
    ["arial.ttf"; "/usr/local/share/fonts/arial.ttf"] /\
  resolve_font Samples.local_fonts_host "Arial" 32 =
    ([], inr (FreeTypeFont "/usr/local/share/fonts/arial.ttf" 32)).
Proof. split; reflexivity. Qed.

(** ** Sample captions *)

Example text_samples :
  text "Frame" 3 0 = "Frame 001" /\
  text "" 3 0 = "001" /\
  text "   " 3 1 = "002" /\
  text " take " 2 99 = " take  100".
Proof. repeat split. Qed.

(** * Further properties of [process] *)

(** ** Exceptions *)

Lemma raised_known_colors host t p e :
  List.length (shape t) = 4%nat -> colors_known p = true ->
  raised (process host (TorchTensor t) p) = Some e ->
  (exists msg, e = ValueError msg) \/ exists msg, e = RuntimeError msg.
Proof.
  intros H4 Hk. rewrite (process_known_colors host t p H4 Hk).
  destruct (resolve_font host (font p) (font_size p)) as [w [e' | f]] eqn:Hf.
  - simpl. intros H; injection H as <-.
    destruct (resolve_font_raises host _ _ _ _ Hf) as (_ & msg & _ & -> & _).
    left; eauto.
  - unfold raised; simpl snd.
    destruct (run_frames host p f _ _ t) as [o [e' | out]] eqn:Hr;
      simpl; [| discriminate].
    intros H; injection H as <-.
    destruct (run_frames_raises _ _ _ _ _ _ _ _ Hr) as [-> | He]; eauto.
Qed.

(** X1: on a four-dimensional tensor [process] raises [KeyError] exactly
    when the font colour is not a key of the colour table (the key of the
    error is then the font colour), or the font colour is a key, the
    outline is enabled with a colour other than "none" and that colour is
    not a key (the key is then the outline colour).  Nothing has been
    printed when the error is raised. *)
Theorem process_key_error host t p key :
  List.length (shape t) = 4%nat ->
  (raised (process host (TorchTensor t) p) = Some (KeyError key) <->
   (dict_get color_map (font_color p) = None /\ key = font_color p) \/
   (dict_get color_map (font_color p) <> None /\
    outline_enabled p = true /\ outline_color p <> "none" /\
    dict_get color_map (outline_color p) = None /\ key = outline_color p)) /\
  (raised (process host (TorchTensor t) p) = Some (KeyError key) ->
   fst (process host (TorchTensor t) p) = []).
Proof.
  intros H4.
  destruct (colors_known p) eqn:Hk.
  - (* no key is missing *)
    assert (Hno : raised (process host (TorchTensor t) p) <> Some (KeyError key)).
    { intros H. destruct (raised_known_colors host t p _ H4 Hk H) as [[m He] | [m He]];
        discriminate. }
    split; [split |]; [tauto | | tauto].
    unfold colors_known in Hk.
    intros [[Hf _] | (Hf & He & Hn & Ho & _)].
    + now rewrite Hf in Hk.
    + destruct (dict_get color_map (font_color p)); [| congruence].
      apply String.eqb_neq in Hn. rewrite He, Hn, Ho in Hk. discriminate.
  - assert (Hp :
      (dict_get color_map (font_color p) = None /\
       process host (TorchTensor t) p = ([], inl (KeyError (font_color p)))) \/
      (dict_get color_map (font_color p) <> None /\
       outline_enabled p = true /\ outline_color p <> "none" /\
       dict_get color_map (outline_color p) = None /\
       process host (TorchTensor t) p = ([], inl (KeyError (outline_color p))))).
    { unfold colors_known in Hk. unfold process.
      rewrite H4. simpl negb. cbv iota. unfold lookup_color.
      destruct (dict_get color_map (font_color p)) as [fc |] eqn:Hf;
        [right | left; split; reflexivity].
      destruct (outline_enabled p) eqn:He;
        destruct (String.eqb_spec (outline_color p) "none") as [Hn | Hn];
        cbn [andb negb] in Hk; try discriminate Hk.
      destruct (dict_get color_map (outline_color p)) as [oc |] eqn:Ho;
        [discriminate Hk |].
      repeat split; try assumption; discriminate. }
    unfold raised.
    destruct Hp as [(Hf & ->) | (Hf & He & Hn & Ho & ->)]; simpl snd; simpl fst.
    + split; [| reflexivity]. split.
      * intros H; injection H as <-. now left.
      * intros [[_ ->] | (H & _)]; [reflexivity | congruence].
    + split; [| reflexivity]. split.
      * intros H; injection H as <-. right. repeat split; assumption.
      * intros [[H _] | (_ & _ & _ & _ & ->)]; [congruence | reflexivity].
Qed.

Lemma process_key_error_purple :
  process Samples.bare_host (TorchTensor Samples.one_frame)
          (set_outline_enabled true
             {| font_size := 32; font_color := "white"; font := "Arial";
                h_position := "left"; v_position := "top";
                h_padding := 20; v_padding := 20; num_padding := 3;
                prefix_text := "Frame"; outline_enabled := false;
                outline_color := "purple"; stroke_width := 1 |})
  = ([], inl (KeyError "purple")).
Proof.
  set (p := set_outline_enabled true _).
  destruct (process_key_error Samples.bare_host Samples.one_frame p "purple")
    as [Hiff Hlog]; [reflexivity |].
  assert (Hr : raised (process Samples.bare_host
                               (TorchTensor Samples.one_frame) p)
               = Some (KeyError "purple")).
  { apply Hiff. right. repeat split; discriminate. }
  specialize (Hlog Hr). unfold raised in Hr.
  destruct (process Samples.bare_host (TorchTensor Samples.one_frame) p)
    as [o [e | out]]; simpl in *; [| discriminate].
  injection Hr as ->. now subst o.
Defined.

(** X2: with parameters that satisfy the declared inputs of the node,
    [process] either returns a batch or raises one of four exceptions:
    the [ValueError] of the rank check, a [ValueError] that the font
    loader raises on one of the candidate paths of the font (which the
    handlers of [OSError] let through), the [ValueError] of the channel
    check, or the [RuntimeError] of [torch.stack] on an empty list.  In
    particular it never raises [KeyError]. *)
Theorem process_outcomes host images p :
  input_types_ok p = true ->
  (exists out, snd (process host images p) = inr out) \/
  snd (process host images p) = inl (ValueError rank_message) \/
  (exists msg path,
      process host images p = ([], inl (ValueError msg)) /\
      In path (font_candidates host (font p)) /\
      truetype_outcome host path (font_size p) = LoadValueError msg) \/
  snd (process host images p) = inl (ValueError channels_message) \/
  snd (process host images p) =
    inl (RuntimeError "stack expects a non-empty TensorList").
Proof.
  intros Hok. pose proof (input_types_colors_known p Hok) as Hk.
  destruct images as [| t]; [right; left; reflexivity |].
  destruct (Nat.eq_dec (List.length (shape t)) 4) as [H4 | H4].
  - destruct (resolve_font host (font p) (font_size p)) as [w [e | f]] eqn:Hf.
    + right; right; left.
      destruct (resolve_font_raises host _ _ _ _ Hf)
        as (-> & msg & path & -> & Hin & Hp).
      exists msg, path. split; [| now split].
      exact (process_font_raises host t p _ _ H4 Hk Hf).
    + destruct (length_four _ H4) as (b & h & w' & c & Hs).
      destruct b as [| b].
      * right; right; right; right.
        rewrite (process_empty host p t w f H4); [reflexivity | | exact Hk | exact Hf].
        now rewrite Hs.
      * destruct (Nat.eq_dec c 3) as [-> | Hc].
        -- left. eexists.
           rewrite (process_exact host p t (S b) h w' w f Hs); [reflexivity | lia | exact Hk | exact Hf].
        -- right; right; right; left.
           now rewrite (process_wrong_channels host p t b h w' c w f Hs Hc Hk Hf).
  - right; left.
    now rewrite (process_not_four_dimensional host (TorchTensor t) p H4).
Qed.

Lemma process_outcomes_defaults :
  exists out,
    snd (process Samples.bare_host (TorchTensor Samples.one_frame)
                 Samples.defaults) = inr out.
Proof.
  destruct (process_outcomes
              Samples.bare_host (TorchTensor Samples.one_frame)
              Samples.defaults eq_refl)
    as [H | [H | [(msg & path & H & _) | [H | H]]]];
    [exact H | | | |]; vm_compute in H; discriminate.
Defined.

(** ** The outline *)

Lemma process_frame_ext host p q f fc oc oc' t i :
  requested_stroke p oc = requested_stroke q oc' ->
  (forall img, text_call host p f fc img i = text_call host q f fc img i) ->
  process_frame host p f fc oc t i = process_frame host q f fc oc' t i.
Proof. intros Hr Ht. unfold process_frame. now rewrite Hr, Ht. Qed.

Lemma run_frames_ext host p q f fc oc oc' t :
  requested_stroke p oc = requested_stroke q oc' ->
  (forall img i, text_call host p f fc img i = text_call host q f fc img i) ->
  run_frames host p f fc oc t = run_frames host q f fc oc' t.
Proof.
  intros Hr Ht. unfold run_frames.
  rewrite (mapM_ext (process_frame host p f fc oc t)
                    (process_frame host q f fc oc' t)); [reflexivity |].
  intros i _. apply process_frame_ext; [exact Hr | intros img; apply Ht].
Qed.

(** [process] once line 89 has bound [outline_color_rgb] to [oc]. *)
Lemma process_with_outline host t p oc :
  (if outline_enabled p && negb (outline_color p =? "none")
   then lookup_color (outline_color p) else ret None) = ([], inr oc) ->
  process host (TorchTensor t) p =
    if negb (List.length (shape t) =? 4)%nat
    then raise (ValueError rank_message)
    else
      font_color_rgb <- lookup_color (font_color p) ;;
      font_path <- resolve_font host (font p) (font_size p) ;;
      run_frames host p font_path font_color_rgb oc t.
Proof.
  intros Ho. unfold process.
  destruct (negb (List.length (shape t) =? 4)%nat); [reflexivity |].
  rewrite Ho. apply bind_congr. intros fc.
  now rewrite bind_ret_l.
Qed.

Lemma color_map_none_key key :
  dict_get color_map key = Some None -> key = "none".
Proof.
  unfold color_map; cbn [dict_get].
  repeat match goal with
         | |- context [String.eqb key ?s] =>
             destruct (String.eqb_spec key s); [try discriminate; auto |]
         end.
  discriminate.
Qed.

Lemma frame_log_requested host p :
  colors_known p = true ->
  frame_log host p (outline_rgb_of p) =
    if outline_requested p && negb (stroke_supported host)
    then [outline_warning] else [].
Proof.
  unfold colors_known, frame_log, requested_stroke, outline_rgb_of,
    outline_requested.
  destruct (dict_get color_map (font_color p)); [| discriminate].
  destruct (outline_enabled p); cbn [andb]; [| reflexivity].
  destruct (String.eqb_spec (outline_color p) "none") as [Hn | Hn];
    cbn [negb andb]; [reflexivity |].
  destruct (dict_get color_map (outline_color p)) as [[c |] |] eqn:Ho;
    [| | discriminate].
  - intros _. destruct (0 <? stroke_width p)%Z; cbn [andb]; [| reflexivity].
    now destruct (stroke_supported host).
  - apply color_map_none_key in Ho. contradiction.
Qed.

(** X3: on a non-empty batch of RGB frames, with colour names of the
    colour table, what [process] prints is determined by the font
    resolution and the outline.  When a candidate font loads, it prints
    the outline warning once per frame exactly when an outline is asked
    for (enabled, a colour other than "none", a positive stroke width)
    and the image library does not support strokes, and nothing else.
    When every candidate fails with [OSError], the font warning comes
    first, once, followed by the same lines.  When the font loader raises
    [ValueError], nothing is printed. *)
Theorem printed_lines host p t b h w :
  shape t = [b; h; w; 3%nat] -> (0 < b)%nat -> colors_known p = true ->
  let outline_lines :=
    if outline_requested p && negb (stroke_supported host)
    then repeat outline_warning b else [] in
  printed (fst (process host (TorchTensor t) p)) =
    match first_candidate host (font_size p)
                          (font_candidates host (font p)) with
    | UseFont _ => outline_lines
    | UseDefault =>
        ("Font " ++ font_map_get (font p) ++ " not found, using default font")
          :: outline_lines
    | Propagate _ => []
    end.
Proof.
  intros Hs Hb Hk outline_lines.
  pose proof (resolve_font_first host (font p) (font_size p)) as Hr.
  assert (Hloop : forall f,
             printed (List.concat
                        (map (frame_events host p f (font_rgb_of p)
                                           (outline_rgb_of p) t) (seq 0 b)))
             = outline_lines).
  { intros f. rewrite loop_printed, (frame_log_requested host p Hk).
    unfold outline_lines.
    destruct (outline_requested p && negb (stroke_supported host)).
    - apply concat_repeat_singleton.
    - apply concat_repeat_nil. }
  destruct (first_candidate host (font_size p) (font_candidates host (font p))).
  - rewrite (process_exact host p t b h w _ _ Hs Hb Hk Hr).
    cbn [fst app]. apply Hloop.
  - rewrite (process_exact host p t b h w _ _ Hs Hb Hk Hr).
    cbn [fst app printed]. f_equal. apply Hloop.
  - rewrite (process_font_raises host t p _ _ ltac:(now rewrite Hs) Hk Hr).
    reflexivity.
Qed.

Lemma printed_lines_two_frames :
  printed (fst (process Samples.local_fonts_host
                        (TorchTensor Samples.two_frames)
                        (set_outline_enabled true Samples.other_outline)))
  = [outline_warning; outline_warning].
Proof.
  rewrite (printed_lines Samples.local_fonts_host
             (set_outline_enabled true Samples.other_outline)
             Samples.two_frames 2 1 2); [reflexivity | reflexivity | lia | reflexivity].
Defined.

(** X4: when an outline is asked for with a colour of the colour table,
    the image library supports strokes and the font resolution does not
    raise, [process] returns and the [draw.text] call of every frame of a
    batch of RGB frames is made on the image of that frame with the
    resolved font, that stroke width and that colour as stroke, the font
    colour as fill, and the position and the caption of the call without
    outline; the frame of the output is the image after that call. *)
Theorem outline_drawn host p t b h w i c warnings f :
  rgb_batch t b h w -> (i < b)%nat ->
  dict_get color_map (font_color p) <> None ->
  outline_enabled p = true ->
  dict_get color_map (outline_color p) = Some (Some c) ->
  (0 < stroke_width p)%Z -> stroke_supported host = true ->
  resolve_font host (font p) (font_size p) = (warnings, inr f) ->
  exists tr out,
    process host (TorchTensor t) p = (tr, inr out) /\
    let call :=
      with_stroke (text_call host p f (font_rgb_of p) (frame_image host t i) i)
                  (stroke_width p, c) in
    nth_error (draws tr) i = Some (frame_image host t i, call) /\
    tensor_get out i =
      from_numpy_div255 (np_array (draw_text host (frame_image host t i) call)) /\
    stroke call = Some (stroke_width p, c) /\
    dict_get color_map (font_color p) = Some (fill call) /\
    call_font call = f /\
    caption call = text (prefix_text p) (num_padding p) i.
Proof.
  intros Hb Hi Hfc He Ho Hw Hsup Hf.
  assert (Hn : (outline_color p =? "none") = false).
  { apply String.eqb_neq. intros Hn. rewrite Hn in Ho. discriminate. }
  assert (Hk : colors_known p = true).
  { unfold colors_known.
    destruct (dict_get color_map (font_color p)); [| congruence].
    now rewrite He, Hn, Ho. }
  assert (Hoc : outline_rgb_of p = Some c).
  { unfold outline_rgb_of. now rewrite He, Hn, Ho. }
  destruct (process_draws host p t b h w warnings f i Hb Hk Hf Hi)
    as (tr & out & Hp & _ & Hd & Hout).
  exists tr, out. split; [exact Hp |]. cbv zeta.
  assert (Hcall :
            drawn_call host p f (font_rgb_of p) (outline_rgb_of p)
                       (frame_image host t i) i =
            with_stroke (text_call host p f (font_rgb_of p)
                                   (frame_image host t i) i)
                        (stroke_width p, c)).
  { unfold drawn_call, requested_stroke. rewrite Hoc, He, Hsup.
    apply Z.ltb_lt in Hw. now rewrite Hw. }
  rewrite <- Hcall.
  split; [exact Hd |]. split; [exact Hout |].
  rewrite Hcall. unfold with_stroke; cbn [stroke fill caption call_font].
  split; [reflexivity |].
  unfold font_rgb_of, text_call.
  destruct (dict_get color_map (font_color p)) as [fc |]; [| congruence].
  now destruct (text_extent host _ _).
Qed.

Lemma outline_drawn_red :
  exists tr out,
    process Samples.bare_host (TorchTensor Samples.one_frame)
            (set_outline_enabled true Samples.other_outline) = (tr, inr out) /\
    map (fun d => stroke (snd d)) (draws tr) = [Some (5, (255, 0, 0))%Z].
Proof.
  destruct (outline_drawn Samples.bare_host
              (set_outline_enabled true Samples.other_outline)
              Samples.one_frame 1 2 2 0 (255, 0, 0)%Z
              [Printed "Font arial.ttf not found, using default font"]
              DefaultFont)
    as (tr & out & Hp & Hd & _).
  - split; reflexivity.
  - lia.
  - discriminate.
  - reflexivity.
  - reflexivity.
  - reflexivity.
  - reflexivity.
  - reflexivity.
  - exists tr, out. split; [exact Hp |].
    assert (Hlen : List.length (draws tr) = 1%nat)
      by (vm_compute in Hp; injection Hp as <- _; reflexivity).
    destruct (draws tr) as [| d [| d' l]]; try discriminate Hlen.
    cbn [nth_error] in Hd. injection Hd as ->. reflexivity.
Defined.

Lemma colors_known_disabled p :
  colors_known p = true -> colors_known (set_outline_enabled false p) = true.
Proof.
  unfold colors_known; cbn [font_color outline_enabled set_outline_enabled andb].
  now destruct (dict_get color_map (font_color p)).
Qed.

Lemma snd_process_frame_unsupported host p f fc oc t i :
  stroke_supported host = false ->
  snd (process_frame host p f fc oc t i) =
  snd (process_frame host (set_outline_enabled false p) f fc None t i).
Proof.
  intros Hsup. unfold process_frame.
  destruct (nth 2 _ 0%nat =? 3)%nat; [| reflexivity].
  apply snd_bind_ext; [| reflexivity].
  unfold draw_caption. rewrite Hsup.
  now destruct (requested_stroke p oc).
Qed.

(** X5: when the image library does not support strokes, the outcome of
    [process] (the output batch or the exception) is the one of the same
    call with the outline disabled, for parameters whose colour names are
    keys of the colour table: the outline is dropped and nothing else
    changes. *)
Theorem outline_unsupported host images p :
  stroke_supported host = false -> colors_known p = true ->
  snd (process host images p) =
  snd (process host images (set_outline_enabled false p)).
Proof.
  intros Hsup Hk.
  destruct images as [| t]; [reflexivity |].
  destruct (Nat.eq_dec (List.length (shape t)) 4) as [H4 | H4].
  - rewrite (process_known_colors host t p H4 Hk).
    rewrite (process_known_colors host t _ H4 (colors_known_disabled p Hk)).
    apply snd_bind_ext; [reflexivity |]. intros f.
    unfold run_frames.
    apply snd_bind_ext; [| reflexivity].
    apply snd_mapM_ext. intros i.
    apply snd_process_frame_unsupported; exact Hsup.
  - now rewrite !(process_not_four_dimensional host (TorchTensor t) _ H4).
Qed.

Lemma outline_unsupported_two_frames :
  snd (process Samples.local_fonts_host (TorchTensor Samples.two_frames)
               (set_outline_enabled true Samples.other_outline)) =
  snd (process Samples.local_fonts_host (TorchTensor Samples.two_frames)
               Samples.other_outline).
Proof.
  apply (outline_unsupported Samples.local_fonts_host
           (TorchTensor Samples.two_frames)
           (set_outline_enabled true Samples.other_outline));
    reflexivity.
Defined.

(** X6: an enabled outline whose colour is "none", or whose stroke width
    is not positive while its colour is a key of the colour table, has no
    effect: the call has the same outcome and prints the same lines as
    with the outline disabled. *)
Theorem outline_inert host images p :
  outline_color p = "none" \/
  ((stroke_width p <= 0)%Z /\ dict_get color_map (outline_color p) <> None) ->
  process host images p = process host images (set_outline_enabled false p).
Proof.
  intros Hin.
  destruct images as [| t]; [reflexivity |].
  assert (Hoc : exists oc,
             (if outline_enabled p && negb (outline_color p =? "none")
              then lookup_color (outline_color p) else ret None)
             = ([], inr oc) /\
             requested_stroke p oc = None).
  { destruct Hin as [Hn | [Hw Hkey]].
    - exists None. rewrite Hn. cbn [String.eqb negb]. simpl.
      now rewrite andb_false_r.
    - destruct (outline_enabled p && negb (outline_color p =? "none")) eqn:Hc.
      + unfold lookup_color.
        destruct (dict_get color_map (outline_color p)) as [oc |];
          [| congruence].
        exists oc. split; [reflexivity |].
        unfold requested_stroke. destruct oc; [| reflexivity].
        replace (0 <? stroke_width p)%Z with false
          by (symmetry; apply Z.ltb_ge; exact Hw).
        now rewrite andb_false_r.
      + exists None. now split. }
  destruct Hoc as (oc & Hl & Hr).
  rewrite (process_with_outline host t p oc Hl).
  rewrite (process_with_outline host t (set_outline_enabled false p) None)
    by reflexivity.
  destruct (negb (List.length (shape t) =? 4)%nat); [reflexivity |].
  apply bind_congr; intros fc. apply bind_congr; intros f.
  apply run_frames_ext; [| reflexivity].
  rewrite Hr. reflexivity.
Qed.

Lemma outline_inert_zero_width :
  process Samples.bare_host (TorchTensor Samples.one_frame)
          {| font_size := 32; font_color := "white"; font := "Arial";
             h_position := "left"; v_position := "top";
             h_padding := 20; v_padding := 20; num_padding := 3;
             prefix_text := "Frame"; outline_enabled := true;
             outline_color := "black"; stroke_width := 0 |} =
  process Samples.bare_host (TorchTensor Samples.one_frame) Samples.defaults.
Proof.
  rewrite outline_inert.
  - reflexivity.
  - right. split; [simpl; lia | discriminate].
Defined.

(** ** Anchors *)

Lemma process_same_frames host images p q :
  font_color p = font_color q -> outline_enabled p = outline_enabled q ->
  outline_color p = outline_color q -> stroke_width p = stroke_width q ->
  font p = font q -> font_size p = font_size q ->
  (forall f fc img i, text_call host p f fc img i = text_call host q f fc img i) ->
  process host images p = process host images q.
Proof.
  intros Hfc He Hoc Hsw Hf Hfs Ht.
  destruct images as [| t]; [reflexivity |].
  unfold process. rewrite <- Hfc, <- He, <- Hoc, <- Hf, <- Hfs.
  destruct (negb (List.length (shape t) =? 4)%nat); [reflexivity |].
  apply bind_congr; intros fc. apply bind_congr; intros oc.
  apply bind_congr; intros f.
  apply run_frames_ext; [| intros img i; apply Ht].
  unfold requested_stroke. now rewrite He, Hsw.
Qed.

(** X7: an anchor name that [process] does not know is not rejected: a
    horizontal anchor other than "left" and "center" acts as "right", and
    a vertical anchor other than "top" and "center" acts as "bottom". *)
Theorem unknown_anchor host images p :
  (h_position p <> "left" -> h_position p <> "center" ->
   process host images p = process host images (set_h_position "right" p)) /\
  (v_position p <> "top" -> v_position p <> "center" ->
   process host images p = process host images (set_v_position "bottom" p)).
Proof.
  split; intros H1 H2; apply process_same_frames; try reflexivity;
    intros f fc img i; unfold text_call;
    cbn [prefix_text num_padding h_position v_position h_padding v_padding
         set_h_position set_v_position];
    destruct (text_extent host _ f) as [tw th]; f_equal; f_equal.
  - unfold x_origin. apply String.eqb_neq in H1, H2. now rewrite H1, H2.
  - unfold y_origin. apply String.eqb_neq in H1, H2. now rewrite H1, H2.
Qed.

Lemma unknown_anchor_middle :
  process Samples.bare_host (TorchTensor Samples.one_frame)
          (set_h_position "middle" Samples.defaults) =
  process Samples.bare_host (TorchTensor Samples.one_frame)
          (set_h_position "right" Samples.defaults).
Proof.
  destruct (unknown_anchor Samples.bare_host (TorchTensor Samples.one_frame)
              (set_h_position "middle" Samples.defaults)) as [H _].
  apply H; discriminate.
Defined.

(** X8: with the anchor "center" the caption is centred to the pixel.
    When the font resolution does not raise, [process] returns, and in
    the [draw.text] call of every frame of a batch of RGB frames the
    margin after the text equals the margin before it, or exceeds it by
    one pixel when the free space is odd; this holds on both axes and for
    text larger than the image as well. *)
Theorem centered_margins host p t b h w i warnings f :
  rgb_batch t b h w -> colors_known p = true -> (i < b)%nat ->
  resolve_font host (font p) (font_size p) = (warnings, inr f) ->
  exists tr out call,
    process host (TorchTensor t) p = (tr, inr out) /\
    nth_error (draws tr) i = Some (frame_image host t i, call) /\
    caption call = text (prefix_text p) (num_padding p) i /\
    call_font call = f /\
    let text_width := fst (text_extent host (caption call) (call_font call)) in
    let text_height := snd (text_extent host (caption call) (call_font call)) in
    let x := fst (xy call) in
    let y := snd (xy call) in
    (h_position p = "center" ->
     0 <= (Z.of_nat w - (x + text_width)) - x <= 1) /\
    (v_position p = "center" ->
     0 <= (Z.of_nat h - (y + text_height)) - y <= 1).
Proof.
  intros Hb Hk Hi Hf. pose proof Hb as [Hs Hwf].
  destruct (process_draws host p t b h w warnings f i Hb Hk Hf Hi)
    as (tr & out & Hp & _ & Hd & _).
  eexists tr, out, _. split; [exact Hp |]. split; [exact Hd |].
  destruct (drawn_call_fields host p f (font_rgb_of p)
              (outline_rgb_of p) (frame_image host t i) i)
    as (Hxy & Hcap & Hfont & _).
  split; [exact Hcap |]. split; [exact Hfont |].
  rewrite Hxy, Hcap, Hfont, text_call_xy.
  rewrite (frame_image_size host t b h w 3 i Hs).
  set (tw := fst (text_extent host _ _)).
  set (th := snd (text_extent host _ _)).
  cbv zeta. cbn [fst snd]. unfold x_origin, y_origin.
  split; intros ->; simpl String.eqb; cbv iota.
  - destruct (h_position p =? "left"); [|];
      pose proof (Z.div_mod (Z.of_nat w - tw) 2 ltac:(lia));
      pose proof (Z.mod_pos_bound (Z.of_nat w - tw) 2 ltac:(lia)); lia.
  - destruct (v_position p =? "top"); [|];
      pose proof (Z.div_mod (Z.of_nat h - th) 2 ltac:(lia));
      pose proof (Z.mod_pos_bound (Z.of_nat h - th) 2 ltac:(lia)); lia.
Qed.

Lemma centered_margins_defaults :
  exists tr out,
    process Samples.bare_host (TorchTensor Samples.one_frame)
            MoreSamples.centered = (tr, inr out) /\
    map (fun d => xy (snd d)) (draws tr) = [(-26, -4)].
Proof.
  destruct (centered_margins Samples.bare_host MoreSamples.centered
              Samples.one_frame 1 2 2 0
              [Printed "Font arial.ttf not found, using default font"]
              DefaultFont)
    as (tr & out & call & Hp & Hd & Hcap & Hfont & Hx & Hy).
  - split; reflexivity.
  - reflexivity.
  - lia.
  - reflexivity.
  - exists tr, out. split; [exact Hp |].
    assert (Hlen : List.length (draws tr) = 1%nat)
      by (vm_compute in Hp; injection Hp as <- _; reflexivity).
    destruct (draws tr) as [| d [| d' l]]; try discriminate Hlen.
    cbn [nth_error] in Hd. injection Hd as ->. cbn [map snd].
    specialize (Hx eq_refl). specialize (Hy eq_refl).
    rewrite Hcap, Hfont in Hx, Hy. cbv zeta in Hx, Hy.
    change (fst (text_extent Samples.bare_host
                   (text (prefix_text MoreSamples.centered)
                         (num_padding MoreSamples.centered) 0) DefaultFont))
      with 54 in Hx.
    change (snd (text_extent Samples.bare_host
                   (text (prefix_text MoreSamples.centered)
                         (num_padding MoreSamples.centered) 0) DefaultFont))
      with 9 in Hy.
    change (Z.of_nat 2) with 2 in Hx, Hy.
    destruct (xy call) as [x y]. cbn [fst snd] in Hx, Hy.
    f_equal. f_equal; lia.
Defined.

(** ** Frames and samples *)

Lemma nth_mapi_from {A B} (f : nat -> A -> B) k l j d d' :
  (j < List.length l)%nat ->
  nth j (mapi_from f k l) d = f (k + j)%nat (nth j l d').
Proof.
  revert k j; induction l as [| a l IH]; simpl; intros k j Hj; [lia |].
  destruct j as [| j].
  - now rewrite Nat.add_0_r.
  - rewrite IH by lia. f_equal. lia.
Qed.

(** X9: frames do not influence each other.  When the font resolution
    does not raise, [process] returns on two batches of RGB frames of the
    same height and width, and if the two batches have the same frame at
    index [i], the [draw.text] call of index [i] and the frame at index
    [i] of the output are the same, whatever the other frames and the
    lengths of the batches are. *)
Theorem frame_locality host p t1 t2 b1 b2 h w i warnings f :
  rgb_batch t1 b1 h w -> rgb_batch t2 b2 h w -> colors_known p = true ->
  resolve_font host (font p) (font_size p) = (warnings, inr f) ->
  (i < b1)%nat -> (i < b2)%nat ->
  tensor_get t1 i = tensor_get t2 i ->
  exists tr1 out1 tr2 out2,
    process host (TorchTensor t1) p = (tr1, inr out1) /\
    process host (TorchTensor t2) p = (tr2, inr out2) /\
    nth_error (draws tr1) i = nth_error (draws tr2) i /\
    nth_error (draws tr1) i <> None /\
    tensor_get out1 i = tensor_get out2 i.
Proof.
  intros Hb1 Hb2 Hk Hf Hi1 Hi2 Heq.
  destruct (process_draws host p t1 b1 h w warnings f i Hb1 Hk Hf Hi1)
    as (tr1 & out1 & Hp1 & _ & Hd1 & Ho1).
  destruct (process_draws host p t2 b2 h w warnings f i Hb2 Hk Hf Hi2)
    as (tr2 & out2 & Hp2 & _ & Hd2 & Ho2).
  exists tr1, out1, tr2, out2.
  split; [exact Hp1 |]. split; [exact Hp2 |].
  rewrite Hd1, Hd2, Ho1, Ho2.
  unfold frame_out, frame_image. rewrite Heq.
  split; [reflexivity |]. split; [discriminate | reflexivity].
Qed.

Lemma frame_locality_second_frame :
  exists tr1 out1 tr2 out2,
    process Samples.bare_host (TorchTensor Samples.two_frames)
            Samples.defaults = (tr1, inr out1) /\
    process Samples.bare_host (TorchTensor MoreSamples.other_first_frame)
            Samples.defaults = (tr2, inr out2) /\
    nth_error (draws tr1) 1 = nth_error (draws tr2) 1 /\
    nth_error (draws tr1) 1 <> None /\
    tensor_get out1 1 = tensor_get out2 1.
Proof.
  apply (frame_locality Samples.bare_host Samples.defaults
           Samples.two_frames MoreSamples.other_first_frame 2 2 1 2 1
           [Printed "Font arial.ttf not found, using default font"]
           DefaultFont).
  - split; reflexivity.
  - split; reflexivity.
  - reflexivity.
  - reflexivity.
  - lia.
  - lia.
  - reflexivity.
Defined.

(** X10: when the font resolution does not raise, every sample of the
    output is the sample at the same position of the same frame of the
    input, multiplied by 255 in single precision and truncated to eight
    bits, passed through the [draw.text] call of that frame and divided
    by 255 in single precision.  Where the drawing leaves a sample alone,
    the output is that eight-bit value over 255: samples are neither
    moved nor mixed. *)
Theorem output_sample host p t b h w i j warnings f :
  rgb_batch t b h w -> colors_known p = true ->
  resolve_font host (font p) (font_size p) = (warnings, inr f) ->
  (i < b)%nat -> (j < h * w * 3)%nat ->
  exists tr out call,
    process host (TorchTensor t) p = (tr, inr out) /\
    nth_error (draws tr) i = Some (frame_image host t i, call) /\
    caption call = text (prefix_text p) (num_padding p) i /\
    nth j (data (tensor_get out i)) 0%Q =
      of_uint8
        (text_ink host call ((j / 3) mod w)%nat (j / (3 * w))%nat (j mod 3)%nat
                  (to_uint8 host (nth j (data (tensor_get t i)) 0%Q))).
Proof.
  intros Hb Hk Hf Hi Hj. pose proof Hb as [Hs Hwf].
  destruct (process_draws host p t b h w warnings f i Hb Hk Hf Hi)
    as (tr & out & Hp & _ & Hd & Hout).
  eexists tr, out, _. split; [exact Hp |]. split; [exact Hd |].
  split.
  { apply (drawn_call_fields host p f (font_rgb_of p)
             (outline_rgb_of p) (frame_image host t i) i). }
  rewrite Hout.
  assert (Hlen : List.length (data (tensor_get t i)) = (h * w * 3)%nat).
  { pose proof (tensor_get_well_formed t b [h; w; 3%nat] i Hs Hwf Hi) as H.
    unfold well_formed in H. apply Nat.eqb_eq in H. rewrite H.
    rewrite (tensor_get_shape t b [h; w; 3%nat] i Hs). simpl. lia. }
  unfold frame_out.
  change (data (from_numpy_div255 (np_array ?img)))
    with (map of_uint8 (im img)).
  rewrite (nth_indep _ 0%Q (of_uint8 x00))
    by (rewrite length_map, draw_text_length, frame_image_length; lia).
  rewrite map_nth. f_equal.
  unfold draw_text; cbn [im].
  rewrite (nth_mapi_from _ 0 _ j x00 x00) by (rewrite frame_image_length; lia).
  rewrite (frame_image_size host t b h w 3 i Hs). cbn [fst Nat.add].
  f_equal.
  unfold frame_image, fromarray, astype_uint8; cbn [im u8_data].
  rewrite (nth_indep _ x00 (to_uint8 host 0%Q)) by (rewrite length_map; lia).
  now rewrite map_nth.
Qed.

Lemma output_sample_untouched :
  exists tr out,
    process Samples.local_fonts_host (TorchTensor Samples.one_frame)
            Samples.defaults = (tr, inr out) /\
    nth 2 (data (tensor_get Samples.one_frame 0)) 0%Q = 1 # 2 /\
    nth 2 (data (tensor_get out 0)) 0%Q = 16711423 # 33554432.
Proof.
  destruct (output_sample Samples.local_fonts_host Samples.defaults
              Samples.one_frame 1 2 2 0 2 []
              (FreeTypeFont "/usr/local/share/fonts/arial.ttf" 32))
    as (tr & out & call & Hp & _ & _ & Hn).
  - split; reflexivity.
  - reflexivity.
  - reflexivity.
  - lia.
  - simpl; lia.
  - exists tr, out. split; [exact Hp |]. split; [reflexivity |].
    rewrite Hn. vm_compute. reflexivity.
Defined.

(** ** Captions *)

Lemma string_app_inv_head (s a b : string) : s ++ a = s ++ b -> a = b.
Proof. induction s; simpl; intros H; [exact H | injection H; auto]. Qed.

(** X11: within one call the captions of different frames are different:
    with the same prefix and the same padding, equal captions belong to
    equal frame indices. *)
Theorem captions_distinct prefix num_padding i j :
  text prefix num_padding i = text prefix num_padding j -> i = j.
Proof.
  rewrite !text_blank_cases.
  assert (Hfn : frame_number num_padding i = frame_number num_padding j -> i = j).
  { intros H. pose proof (parse_decimal_format_0d num_padding (i + 1)) as Hi.
    pose proof (parse_decimal_format_0d num_padding (j + 1)) as Hj.
    unfold frame_number in H. rewrite H, Hj in Hi.
    injection Hi. lia. }
  destruct (blank prefix); [exact Hfn |].
  intros H. apply string_app_inv_head in H. simpl in H.
  injection H as H. auto.
Qed.

Lemma captions_distinct_sample :
  (4 = 4)%nat /\ text "Frame" 3 9 <> text "Frame" 3 99.
Proof.
  split.
  - apply (captions_distinct "Frame" 3 4 4). reflexivity.
  - intros H. apply captions_distinct in H. discriminate.
Defined.

(** * Properties of font discovery *)

(** ** The order on strings *)

Lemma ascii_compare_refl c : Ascii.compare c c = Eq.
Proof. apply N.compare_refl. Qed.

Lemma ascii_compare_lt_trans a b c :
  Ascii.compare a b = Lt -> Ascii.compare b c = Lt -> Ascii.compare a c = Lt.
Proof.
  unfold Ascii.compare. rewrite !N.compare_lt_iff. apply N.lt_trans.
Qed.

Lemma string_lt_irrefl s : ~ string_lt s s.
Proof.
  unfold string_lt. induction s as [| c s IH]; simpl; [discriminate |].
  now rewrite ascii_compare_refl.
Qed.

Lemma string_lt_trans a b c : string_lt a b -> string_lt b c -> string_lt a c.
Proof.
  unfold string_lt. revert b c.
  induction a as [| x a IH]; intros [| y b] [| z c]; simpl;
    try discriminate; try reflexivity.
  destruct (Ascii.compare x y) eqn:Hxy; try discriminate;
    destruct (Ascii.compare y z) eqn:Hyz; try discriminate; intros Hab Hbc.
  - apply Ascii.compare_eq_iff in Hxy, Hyz; subst.
    rewrite ascii_compare_refl. eauto.
  - apply Ascii.compare_eq_iff in Hxy; subst. now rewrite Hyz.
  - apply Ascii.compare_eq_iff in Hyz; subst. now rewrite Hxy.
  - now rewrite (ascii_compare_lt_trans x y z Hxy Hyz).
Qed.

(** ** [sorted(set(...))] *)

Lemma insert_sorted_In s l x :
  In x (insert_sorted s l) <-> x = s \/ In x l.
Proof.
  induction l as [| y l IH]; simpl; [intuition |].
  destruct (String.compare s y) eqn:Hc; simpl.
  - apply String.compare_eq_iff in Hc; subst. intuition.
  - intuition.
  - rewrite IH. intuition.
Qed.

Lemma sorted_set_In l x : In x (sorted_set l) <-> In x l.
Proof.
  induction l as [| s l IH]; simpl; [tauto |].
  rewrite insert_sorted_In, IH. intuition.
Qed.

Lemma insert_sorted_HdRel s l x :
  string_lt x s -> HdRel string_lt x l ->
  HdRel string_lt x (insert_sorted s l).
Proof.
  intros Hxs Hl. destruct l as [| y l]; simpl; [now constructor |].
  destruct (String.compare s y); [assumption | now constructor |].
  constructor. now inversion Hl.
Qed.

Lemma insert_sorted_Sorted s l :
  Sorted string_lt l -> Sorted string_lt (insert_sorted s l).
Proof.
  induction 1 as [| y l Hl IH Hy]; simpl; [repeat constructor |].
  destruct (String.compare s y) eqn:Hc.
  - now constructor.
  - constructor; [now constructor | now constructor].
  - constructor; [exact IH |].
    apply insert_sorted_HdRel; [| exact Hy].
    unfold string_lt. rewrite String.compare_antisym, Hc. reflexivity.
Qed.

Lemma sorted_set_Sorted l : Sorted string_lt (sorted_set l).
Proof.
  induction l; simpl; [constructor | now apply insert_sorted_Sorted].
Qed.

Lemma sorted_set_StronglySorted l : StronglySorted string_lt (sorted_set l).
Proof.
  apply Sorted_StronglySorted; [| apply sorted_set_Sorted].
  intros a b c; apply string_lt_trans.
Qed.

Lemma StronglySorted_NoDup l : StronglySorted string_lt l -> NoDup l.
Proof.
  induction 1 as [| x l Hl IH Hx]; constructor; [| exact IH].
  intros Hin. rewrite Forall_forall in Hx.
  exact (string_lt_irrefl x (Hx x Hin)).
Qed.

Lemma sorted_set_nil l : sorted_set l = [] <-> l = [].
Proof.
  split; [| now intros ->].
  destruct l as [| s l]; [reflexivity |]. intros H.
  assert (Hin : In s (sorted_set (s :: l))) by (apply sorted_set_In; now left).
  rewrite H in Hin. destruct Hin.
Qed.

Lemma get_system_fonts_found fs :
  font_paths fs <> [] ->
  get_system_fonts fs = sorted_set (map (font_name fs) (font_paths fs)).
Proof.
  intros Hne. unfold get_system_fonts.
  destruct (sorted_set _) eqn:Hs; [| reflexivity].
  apply (proj1 (sorted_set_nil _)) in Hs. apply map_eq_nil in Hs.
  contradiction.
Qed.

(** X12: [_get_system_fonts] never returns an empty list, so the fallback
    of [INPUT_TYPES] for an empty list is never taken: the choices that
    [INPUT_TYPES] declares for "font" are the list of [_get_system_fonts],
    and there is at least one. *)
Theorem input_types_font_choices fs :
  get_system_fonts fs <> [] /\
  dict_get (INPUT_TYPES fs) "font" = Some (CHOICE (get_system_fonts fs) None).
Proof.
  assert (Hne : get_system_fonts fs <> []).
  { unfold get_system_fonts.
    destruct (sorted_set _); unfold fallback_fonts; discriminate. }
  split; [exact Hne |].
  unfold INPUT_TYPES. cbn [dict_get String.eqb Ascii.eqb Bool.eqb].
  destruct (get_system_fonts fs); [congruence | reflexivity].
Qed.

(** X13: when at least one font file is discovered, the list of
    [_get_system_fonts] is strictly increasing in the order of code
    points, hence without repetition, and its members are exactly the
    names (base name without extension) of the discovered files. *)
Theorem system_fonts_sorted fs :
  font_paths fs <> [] ->
  StronglySorted string_lt (get_system_fonts fs) /\
  NoDup (get_system_fonts fs) /\
  forall name,
    In name (get_system_fonts fs) <->
    exists f, In f (font_paths fs) /\ font_name fs f = name.
Proof.
  intros Hne. rewrite (get_system_fonts_found fs Hne).
  split; [apply sorted_set_StronglySorted |].
  split; [apply StronglySorted_NoDup, sorted_set_StronglySorted |].
  intros name. rewrite sorted_set_In, in_map_iff.
  split; intros (f & H1 & H2); exists f; auto.
Qed.

Lemma system_fonts_sorted_linux :
  get_system_fonts FontSamples.linux = ["Aller"; "Lato"; "Vera"] /\
  NoDup (get_system_fonts FontSamples.linux).
Proof.
  destruct (system_fonts_sorted FontSamples.linux) as (_ & Hnd & _).
  - vm_compute. discriminate.
  - split; [vm_compute; reflexivity | exact Hnd].
Defined.

(** X14: the four fallback names are returned exactly when no font file
    is discovered; the list of a successful discovery is never mistaken
    for them, because they are not in increasing order. *)
Theorem system_fonts_fallback fs :
  get_system_fonts fs = fallback_fonts <-> font_paths fs = [].
Proof.
  split.
  - intros H. destruct (font_paths fs) as [| f l] eqn:Hp; [reflexivity |].
    assert (Hne : font_paths fs <> []) by (rewrite Hp; discriminate).
    assert (Hs : StronglySorted string_lt (get_system_fonts fs))
      by (rewrite (get_system_fonts_found fs Hne);
          apply sorted_set_StronglySorted).
    rewrite H in Hs. unfold fallback_fonts in Hs.
    inversion Hs as [| ? ? Hs1 _]; subst.
    inversion Hs1 as [| ? ? Hs2 _]; subst.
    inversion Hs2 as [| ? ? _ Hlt]; subst.
    inversion Hlt as [| ? ? Hc _]; subst.
    unfold string_lt in Hc. vm_compute in Hc. discriminate.
  - intros H. unfold get_system_fonts. now rewrite H.
Qed.

Lemma system_fonts_fallback_bare :
  get_system_fonts FontSamples.bare = fallback_fonts.
Proof. apply system_fonts_fallback. vm_compute. reflexivity. Defined.

(** X15: the output of an [fc-list] that returns a code other than 0 is
    ignored: the list of fonts is the one of a system without [fc-list]. *)
Theorem fc_list_failure_ignored fs returncode fc_stdout :
  run_fc_list fs = FcRan returncode fc_stdout -> returncode <> 0%Z ->
  get_system_fonts fs = get_system_fonts (set_run_fc_list FcUnavailable fs) /\
  font_paths fs = directory_paths fs.
Proof.
  intros Hr Hrc.
  assert (Hp : font_paths fs = directory_paths fs).
  { unfold font_paths, fc_list_paths. rewrite Hr.
    apply Z.eqb_neq in Hrc. now rewrite Hrc. }
  split; [| exact Hp].
  unfold get_system_fonts. rewrite Hp. reflexivity.
Qed.

Lemma fc_list_failure_ignored_linux :
  get_system_fonts
    (set_run_fc_list (FcRan 1 "/opt/fonts/Lato.otf: ") FontSamples.linux)
  = ["Aller"; "Vera"].
Proof.
  destruct (fc_list_failure_ignored
              (set_run_fc_list (FcRan 1 "/opt/fonts/Lato.otf: ")
                               FontSamples.linux)
              1 "/opt/fonts/Lato.otf: " eq_refl)
    as [H _]; [discriminate |].
  rewrite H. vm_compute. reflexivity.
Defined.

(** ** The output of [fc-list] *)

Lemma string_app_assoc (a b c : string) : (a ++ b) ++ c = a ++ (b ++ c).
Proof. induction a; simpl; congruence. Qed.

Lemma splitlines_from_line line s rest :
  one_line s = true ->
  splitlines_from line (s ++ String "010" rest) =
    (line ++ s) :: splitlines_from "" rest.
Proof.
  revert line; induction s as [| c s IH]; intros line Hs; simpl.
  - f_equal. induction line; simpl; congruence.
  - simpl in Hs. apply andb_prop in Hs as [Hc Hs].
    apply andb_prop in Hc as [Hcr Hlb].
    apply negb_true_iff in Hcr, Hlb. rewrite Hcr, Hlb.
    rewrite IH by exact Hs. now rewrite string_app_assoc.
Qed.

Lemma one_line_app a b : one_line (a ++ b) = one_line a && one_line b.
Proof.
  induction a as [| c a IH]; simpl; [reflexivity |].
  now rewrite IH, andb_assoc.
Qed.

Lemma before_colon_app path rest :
  no_colon path = true -> before_colon (path ++ ":" ++ rest) = path.
Proof.
  induction path as [| c path IH]; simpl; [reflexivity |].
  intros H. apply andb_prop in H as [Hc Hp].
  apply negb_true_iff in Hc. rewrite Hc. f_equal. exact (IH Hp).
Qed.

Lemma fc_list_output_lines entries :
  Forall (fun e => no_colon (fst e) = true /\ one_line (fst e) = true /\
                   one_line (snd e) = true) entries ->
  map before_colon (splitlines (fc_list_output entries)) = map fst entries.
Proof.
  unfold splitlines.
  induction 1 as [| [path rest] entries (Hc & Hp & Hl) _ IH];
    [reflexivity |].
  cbn [fc_list_output map fst].
  replace (path ++ ":" ++ rest ++ String "010" (fc_list_output entries))
    with ((path ++ ":" ++ rest) ++ String "010" (fc_list_output entries))
    by (now rewrite !string_app_assoc).
  rewrite splitlines_from_line.
  - cbn [map append]. rewrite IH. f_equal.
    apply before_colon_app. exact Hc.
  - simpl in Hp, Hl. rewrite one_line_app, Hp. simpl. exact Hl.
Qed.

(** X16: when [fc-list] returns 0 and prints one line per font file, the
    path first and a colon after it, the paths that [_get_system_fonts]
    reads from it are the paths printed, in order, provided that no path
    contains a colon and no line contains a line boundary. *)
Theorem fc_list_paths_parsed fs entries :
  run_fc_list fs = FcRan 0 (fc_list_output entries) ->
  Forall (fun e => no_colon (fst e) = true /\ one_line (fst e) = true /\
                   one_line (snd e) = true) entries ->
  fc_list_paths fs = map fst entries.
Proof.
  intros Hr Hall. unfold fc_list_paths. rewrite Hr. simpl Z.eqb. cbv iota.
  exact (fc_list_output_lines entries Hall).
Qed.

Lemma fc_list_paths_parsed_linux :
  fc_list_paths FontSamples.linux =
    ["/usr/share/fonts/truetype/Vera.ttf"; "/opt/fonts/Lato.otf"].
Proof.
  apply (fc_list_paths_parsed FontSamples.linux
           [("/usr/share/fonts/truetype/Vera.ttf", " ");
            ("/opt/fonts/Lato.otf", " ")]).
  - reflexivity.
  - repeat constructor.
Defined.
